(** * portmap: NAT-PMP / UPnP port mapping (github.com/hlandau/portmap)

  A shallow embedding of the Go sources and the properties proved of
  them.  Layout:

  - [GoTime]     : [time.Time] and [time.Duration] as integers (nanoseconds);
  - [denet]      : the backoff clock of degoutils/net, which the repository
                   imports;
  - [ssdpbase], [ssdp] : the SSDP registry (ssdp/ssdp.go) and the broadcast
                   interval (ssdp/ssdpbase/ssdp.go);
  - [Go]         : byte slices, call outcomes, [net.IP];
  - [natpmp]     : the NAT-PMP single-transaction client (package natpmp);
  - [upnp]       : the UPnP WANIPConnection client (upnp/upnp.go);
  - [portmap]    : the mapping object (portmap.go);
  - [controller] : the goroutine that maintains a mapping
                   ([portMappingLoop] of package portmap), as a transition
                   system;
  - [samples]    : concrete gateways, replies and runs;
  - the properties, component by component. *)

From stdpp Require Import base gmap strings list pretty.

Local Open Scope Z_scope.

(** ** Go's time package

  A [time.Time] is an instant; we count nanoseconds from Go's zero instant
  (January 1, year 1, 00:00 UTC), so that [time.Time{}] is [0] and
  [IsZero] is a comparison with [0].  A [time.Duration] is a count of
  nanoseconds.  Wall-clock adjustments and 64-bit overflow are left out. *)
Module GoTime.

Definition Time := Z.
Definition Duration := Z.

Definition Millisecond : Duration := 1000000.
Definition Second : Duration := 1000 * Millisecond.
Definition Hour : Duration := 3600 * Second.

Definition zero : Time := 0.
Definition IsZero (t : Time) : bool := t =? 0.
(** [t.After(u)] *)
Definition After (t u : Time) : bool := u <? t.
(** [t.Add(d)] *)
Definition Add (t : Time) (d : Duration) : Time := t + d.

End GoTime.

(** ** The backoff clock (github.com/hlandau/degoutils/net, type Backoff) *)
Module denet.
Import GoTime.

(** Modelled from the spec: the type [Backoff] and its methods [Reset] and
    [NextDelay] live in the imported package degoutils/net and are not
    among the sources.  The specification (data model, "Backoff state")
    gives: parameters max attempts N, initial delay D0, max delay Dmax,
    "saturate after" k; successive delays D_i = min(D0 * 2^min(i,k), Dmax)
    for i < N; the zero duration at i = N; Reset returns i to 0.  The
    comment on [Config.Backoff] in portmap.go adds that [MaxTries] = 0
    means no limit on retries. *)
Record Backoff := mkBackoff {
  MaxTries : Z;
  InitialDelay : Duration;
  MaxDelay : Duration;
  MaxDelayAfterTries : Z;
  CurrentTry : Z
}.

Definition set_CurrentTry (i : Z) (b : Backoff) : Backoff :=
  mkBackoff (MaxTries b) (InitialDelay b) (MaxDelay b)
            (MaxDelayAfterTries b) i.

Definition Reset (b : Backoff) : Backoff := set_CurrentTry 0 b.

(** The i-th delay of the schedule. *)
Definition delay_at (b : Backoff) (i : Z) : Duration :=
  Z.min (InitialDelay b * 2 ^ Z.min i (MaxDelayAfterTries b)) (MaxDelay b).

(** [NextDelay] returns the delay and the advanced clock. *)
Definition NextDelay (b : Backoff) : Duration * Backoff :=
  if negb (MaxTries b =? 0) && (MaxTries b <=? CurrentTry b)
  then (0, b)
  else (delay_at b (CurrentTry b), set_CurrentTry (CurrentTry b + 1) b).

(** The delays returned by [n] successive calls. *)
Fixpoint delays (n : nat) (b : Backoff) : list Duration :=
  match n with
  | O => []
  | S n' => let '(d, b') := NextDelay b in d :: delays n' b'
  end.

End denet.

(** ** SSDP registry (ssdp/ssdp.go) and BroadcastInterval (ssdp/ssdpbase) *)
Module ssdpbase.
Import GoTime.

(** [const BroadcastInterval = 60 * time.Second] *)
Definition BroadcastInterval : Duration := 60 * Second.

(** [type Event struct { Location *url.URL; ST string; USN string }];
    the location is kept in its string form. *)
Record Event := mkEvent {
  ev_Location : string;
  ev_ST : string;
  ev_USN : string
}.

End ssdpbase.

Module ssdp.
Import GoTime.

Record Service := mkService {
  Location : string;
  ST : string;
  USN : string;
  LastSeen : Time
}.

#[global] Instance Service_eq_dec : EqDecision Service.
Proof. solve_decision. Defined.

(** [var byUSN = map[string]*Service{}] *)
Abbreviation registry := (gmap string Service).

(** One turn of [loop]: the entry for the event's USN is created if
    absent and then overwritten in place, stamped with the current time. *)
Definition register (now : Time) (ev : ssdpbase.Event)
    (byUSN : registry) : registry :=
  <[ ssdpbase.ev_USN ev :=
       mkService (ssdpbase.ev_Location ev) (ssdpbase.ev_ST ev)
                 (ssdpbase.ev_USN ev) now ]> byUSN.

(** The test of the loop body of [GetServicesByType]. *)
Definition fresh (st : string) (limit : Time) (v : Service) : bool :=
  bool_decide (ST v = st) && After (LastSeen v) limit.

(** [GetServicesByType]: the range over the map visits every entry once,
    in an order Go leaves unspecified; [map_to_list] fixes one. *)
Definition GetServicesByType (byUSN : registry) (now : Time)
    (st : string) : list Service :=
  let limit := Add now (ssdpbase.BroadcastInterval * -3) in
  filter (λ v, fresh st limit v = true) (snd <$> map_to_list byUSN).

End ssdp.

(** ** Go slices and call outcomes *)
Module Go.

(** A byte slice: [elems] are the bytes s[0:len(s)], [spare] the bytes of
    the backing array between len(s) and cap(s).  Slicing is checked
    against the capacity, as in Go. *)
Record slice := mkSlice { elems : list Z; spare : list Z }.

Definition len (s : slice) : nat := length (elems s).
Definition cap (s : slice) : nat := (length (elems s) + length (spare s))%nat.

Definition of_bytes (l : list Z) : slice := mkSlice l [].

(** [s[lo:]]: needs lo <= len(s). *)
Definition slice_from (s : slice) (lo : nat) : option slice :=
  if (lo <=? len s)%nat then Some (mkSlice (drop lo (elems s)) (spare s))
  else None.

(** [s[lo:hi]]: needs lo <= hi <= cap(s). *)
Definition slice_range (s : slice) (lo hi : nat) : option slice :=
  if (lo <=? hi)%nat && (hi <=? cap s)%nat
  then let all := elems s ++ spare s in
       Some (mkSlice (take (hi - lo) (drop lo all)) (drop hi all))
  else None.

(** What a call does: return a value, return an error, or panic. *)
Inductive outcome (E A : Type) :=
| Ret (a : A)
| Fail (e : E)
| Panic.
Arguments Ret {E A} a.
Arguments Fail {E A} e.
Arguments Panic {E A}.

(** [net.IP] is a byte slice of length 4 or 16. *)
Definition IP := list Z.

Definition v4InV6Prefix : list Z := [0;0;0;0;0;0;0;0;0;0;255;255].

Definition bytes_eqb (a b : list Z) : bool := bool_decide (a = b).

(** [func (ip IP) Equal(x IP) bool] of package net. *)
Definition IP_Equal (ip x : IP) : bool :=
  if (length ip =? length x)%nat then bytes_eqb ip x
  else if (length ip =? 4)%nat && (length x =? 16)%nat
       then bytes_eqb (take 12 x) v4InV6Prefix && bytes_eqb ip (drop 12 x)
  else if (length ip =? 16)%nat && (length x =? 4)%nat
       then bytes_eqb (take 12 ip) v4InV6Prefix && bytes_eqb (drop 12 ip) x
  else false.

(** [binary.BigEndian.Uint16] and [Uint32] on the first bytes. *)
Definition be16 (b0 b1 : Z) : Z := Z.lor (Z.shiftl b0 8) b1.
Definition be32 (b0 b1 b2 b3 : Z) : Z :=
  Z.lor (Z.lor (Z.lor (Z.shiftl b0 24) (Z.shiftl b1 16)) (Z.shiftl b2 8)) b3.

(** Big-endian encoding of a 16-bit and a 32-bit value. *)
Definition put16 (v : Z) : list Z :=
  [Z.land (Z.shiftr v 8) 255; Z.land v 255].
Definition put32 (v : Z) : list Z :=
  [Z.land (Z.shiftr v 24) 255; Z.land (Z.shiftr v 16) 255;
   Z.land (Z.shiftr v 8) 255; Z.land v 255].

End Go.

(** ** NAT-PMP client (package natpmp) *)
Module natpmp.
Import GoTime Go.

Inductive error :=
| ErrTimeout                 (* natpmpErrTimeout, "Request timed out." *)
| ErrGateway (rc : Z)        (* nonzero result code *)
| ErrShortResponse           (* "short response" *)
| ErrUnsupportedProtocol     (* "unsupported protocol" *)
| ErrIO (what : string).     (* an error of the socket layer *)

Definition result := outcome error.

Definition opcGetExternalAddr : Z := 0.
Definition opcMapUDP : Z := 1.
Definition opcMapTCP : Z := 2.

Definition TCP : Z := 6.
Definition UDP : Z := 17.

(** [func (p Protocol) opcode() (opcodeNo, bool)] *)
Definition opcode (p : Z) : Z * bool :=
  if p =? TCP then (opcMapTCP, true)
  else if p =? UDP then (opcMapUDP, true)
  else (0, false).

Definition hostToGatewayPort : Z := 5351.
Definition version0 : Z := 0.

(** [var backoff = net.Backoff{...}] *)
Definition backoff : denet.Backoff :=
  denet.mkBackoff 9 (250 * Millisecond) (64000 * Millisecond) 8 0.

(** What the socket does in one turn of the loop of [makeRequest]. *)
Inductive attempt :=
| SetDeadlineFails (what : string)
| WriteFails (what : string)
| ReadTimeout                       (* err.(net.Error).Timeout() *)
| ReadFails (what : string)
| Received (res : slice) (ip : IP) (port : Z).

(** The socket calls [makeRequest] issues, in order. *)
Inductive action :=
| ASetDeadline (maxtime : Duration)   (* SetDeadline(now + maxtime) *)
| AWrite (msg : list Z)
| ARead.

(** The tests that make the loop [continue] after a datagram arrived. *)
Definition wrong_source (dst : IP) (ip : IP) (port : Z) : bool :=
  negb (IP_Equal ip dst) || negb (port =? hostToGatewayPort).
Definition too_short (res : slice) : bool := (len res <? 4)%nat.
Definition wrong_header (opc : Z) (res : slice) : bool :=
  negb (nth 0 (elems res) 0 =? 0)
  || negb (nth 1 (elems res) 0 =? Z.lor 128 opc).
Definition discarded (dst : IP) (opc : Z) (res : slice) (ip : IP)
    (port : Z) : bool :=
  wrong_source dst ip port || too_short res || wrong_header opc res.

(** The [for] loop of [makeRequest].  [net] lists what the socket does
    in each turn; when the list is used up nothing more arrives (the read
    times out).  [fuel] bounds the number of turns; [None] means the
    bound was reached. *)
Fixpoint request_loop (fuel : nat) (dst : IP) (opc : Z) (msg : list Z)
    (rconf : denet.Backoff) (net : list attempt)
    : option (result slice * list action) :=
  match fuel with
  | O => None
  | S fuel' =>
    let '(maxtime, rconf') := denet.NextDelay rconf in
    if maxtime =? 0 then Some (Fail ErrTimeout, [])
    else
      let again acts :=
        match request_loop fuel' dst opc msg rconf' (tail net) with
        | Some (r, tr) => Some (r, acts ++ tr)
        | None => None
        end in
      match head net with
      | Some (SetDeadlineFails e) =>
          Some (Fail (ErrIO e), [ASetDeadline maxtime])
      | Some (WriteFails e) =>
          Some (Fail (ErrIO e), [ASetDeadline maxtime; AWrite msg])
      | Some (ReadFails e) =>
          Some (Fail (ErrIO e), [ASetDeadline maxtime; AWrite msg; ARead])
      | Some ReadTimeout | None =>
          again [ASetDeadline maxtime; AWrite msg; ARead]
      | Some (Received res ip port) =>
          let acts := [ASetDeadline maxtime; AWrite msg; ARead] in
          if wrong_source dst ip port then again acts
          else if too_short res then again acts
          else if wrong_header opc res then again acts
          else
            let rc := be16 (nth 2 (elems res) 0) (nth 3 (elems res) 0) in
            if negb (rc =? 0) then Some (Fail (ErrGateway rc), acts)
            else match slice_from res 4 with
                 | Some r => Some (Ret r, acts)
                 | None => Some (Panic, acts)
                 end
      end
  end.

(** Turns the loop can take at most: one per try and one more that sees
    the zero delay. *)
Definition max_turns (b : denet.Backoff) : nat :=
  S (Z.to_nat (denet.MaxTries b)).

(** [makeRequest]: [dial] is the error of [DialUDP], if any. *)
Definition makeRequest (dial : option string) (net : list attempt)
    (dst : IP) (opc : Z) (data : list Z)
    : option (result slice * list action) :=
  match dial with
  | Some e => Some (Fail (ErrIO e), [])
  | None =>
    let msg := [version0; opc] ++ data in
    let rconf := denet.Reset backoff in
    request_loop (max_turns backoff) dst opc msg rconf net
  end.

(** [GetExternalAddr] *)
Definition GetExternalAddr (dial : option string) (net : list attempt)
    (gwaddr : IP) : option (result IP * list action) :=
  match makeRequest dial net gwaddr opcGetExternalAddr [] with
  | None => None
  | Some (Fail e, tr) => Some (Fail e, tr)
  | Some (Panic, tr) => Some (Panic, tr)
  | Some (Ret r, tr) =>
      match slice_range r 4 8 with
      | Some ip => Some (Ret (elems ip), tr)
      | None => Some (Panic, tr)
      end
  end.

(** [uint32(lifetime.Seconds())] for a lifetime that is not negative;
    the seconds are taken by integer division. *)
Definition lifetime_seconds (lifetime : Duration) : Z :=
  (lifetime / Second) mod 2 ^ 32.

(** [Map]: returns the external port and the lifetime granted. *)
Definition Map (dial : option string) (net : list attempt) (gwaddr : IP)
    (proto : Z) (internalPort suggestedExternalPort : Z)
    (lifetime : Duration)
    : option (result (Z * Duration) * list action) :=
  let '(opc, ok) := opcode proto in
  if negb ok then Some (Fail ErrUnsupportedProtocol, [])
  else
    let b := put16 0 ++ put16 internalPort ++ put16 suggestedExternalPort
             ++ put32 (lifetime_seconds lifetime) in
    match makeRequest dial net gwaddr opc b with
    | None => None
    | Some (Fail e, tr) => Some (Fail e, tr)
    | Some (Panic, tr) => Some (Panic, tr)
    | Some (Ret r, tr) =>
        if (len r <? 12)%nat then Some (Fail ErrShortResponse, tr)
        else
          let e := elems r in
          let externalPort := be16 (nth 6 e 0) (nth 7 e 0) in
          let actualLifetime :=
            be32 (nth 8 e 0) (nth 9 e 0) (nth 10 e 0) (nth 11 e 0) * Second in
          Some (Ret (externalPort, actualLifetime), tr)
    end.

(** The deadline windows and the datagrams sent, read off the socket calls. *)
Definition deadlines (tr : list action) : list Duration :=
  omap (fun a => match a with ASetDeadline dl => Some dl | _ => None end) tr.
Definition writes (tr : list action) : list (list Z) :=
  omap (fun a => match a with AWrite msg => Some msg | _ => None end) tr.

(** The retransmission schedule of RFC 6886, section 3.1. *)
Definition schedule : list Duration :=
  [250 * Millisecond; 500 * Millisecond; 1 * Second; 2 * Second; 4 * Second;
   8 * Second; 16 * Second; 32 * Second; 64 * Second].

(** The socket calls of one turn of the loop that got as far as the read. *)
Definition turn (msg : list Z) (maxtime : Duration) : list action :=
  [ASetDeadline maxtime; AWrite msg; ARead].

End natpmp.

(** ** UPnP WANIPConnection client (upnp/upnp.go) *)
Module upnp.
Import GoTime Go.
Local Open Scope string_scope.

(** The double quote, for the XML and header texts. *)
Definition dq : string := String (Ascii.ascii_of_nat 34) "".

Inductive error :=
| ErrURLParse          (* url.Parse failed *)
| ErrTransport         (* http.Get / http.Client.Do failed *)
| ErrDescriptionStatus (* "non-200 status code when retrieving UPnP device description" *)
| ErrXML               (* XML decoding failed *)
| ErrDial              (* net.Dial failed *)
| ErrSOAPStatus        (* "Non-successful HTTP error code" *)
| ErrParseIP.          (* "Unable to parse IP address" *)

Definition result := outcome error.

(** [url.URL], as far as the client looks into it. *)
Record url_URL := mkURL { Scheme : string; Host : string; Path : string }.

Definition empty_URL : url_URL := mkURL "" "" "".

Record xURLField := mkURLField { URL : url_URL; OK : bool; Str : string }.

Record xService := mkXService {
  ServiceType : string;
  ServiceID : string;
  ControlURL : xURLField
}.

(** [type xDevice struct { Services []xService; Devices []xDevice }] *)
Inductive xDevice :=
| mkDevice (Services : list xService) (Devices : list xDevice).

(** What the client asks of the Go libraries and of the network. *)
Record world := mkWorld {
  url_Parse : string -> option url_URL;            (* None: an error *)
  ResolveReference : url_URL -> url_URL -> url_URL; (* base.ResolveReference(u) *)
  URL_String : url_URL -> string;
  http_Get : string -> option (Z * string);         (* status code and body *)
  decode_root : string -> option xDevice;           (* the root's device *)
  Int31n : Z -> Z;                                  (* rand.Int31n *)
  dial_local : string -> option IP;                 (* local address towards a host *)
  IP_String : IP -> string;
  http_Post : string -> string -> string -> option (Z * string);
                                     (* url, SOAPAction, body *)
  decode_envelope : string -> option string;        (* Body.Data *)
  decode_extaddr : string -> option string;         (* NewExternalIPAddress *)
  ParseIP : string -> option IP
}.

Section WithWorld.
Variable w : world.

(** [func (self *xURLField) InitURLFields(base *url.URL)] *)
Definition URLField_InitURLFields (base : url_URL) (f : xURLField) : xURLField :=
  match url_Parse w (Str f) with
  | None => mkURLField empty_URL false (Str f)
  | Some u => mkURLField (ResolveReference w base u) true (Str f)
  end.

(** [func (self *xService) InitURLFields(base *url.URL)] *)
Definition Service_InitURLFields (base : url_URL) (s : xService) : xService :=
  mkXService (ServiceType s) (ServiceID s)
             (URLField_InitURLFields base (ControlURL s)).

(** [func (self *xDevice) InitURLFields(base *url.URL)] *)
Fixpoint InitURLFields (base : url_URL) (d : xDevice) : xDevice :=
  match d with
  | mkDevice ss ds =>
      mkDevice (Service_InitURLFields base <$> ss) (InitURLFields base <$> ds)
  end.

(** [func (self *xDevice) VisitServices(f servicesVisitorFunc)]: the
    variables the closure [f] updates are threaded as [acc]. *)
Fixpoint VisitServices {A} (f : xService -> A -> A) (d : xDevice) (acc : A) : A :=
  match d with
  | mkDevice ss ds =>
      fold_left (fun a d' => VisitServices f d' a) ds
                (fold_left (fun a s => f s a) ss acc)
  end.

Definition WANIPConnectionURN : string :=
  "urn:schemas-upnp-org:service:WANIPConnection:1".

(** The closure passed to [VisitServices] in [getWANIPControlURL]. *)
Definition pick (s : xService) (wurl : option url_URL) : option url_URL :=
  if negb (String.eqb (ServiceType s) WANIPConnectionURN)
     || bool_decide (is_Some wurl)
     || negb (OK (ControlURL s))
  then wurl
  else Some (URL (ControlURL s)).

(** [getWANIPControlURL]: the pair (wurl, err) it returns; [None] is nil. *)
Definition getWANIPControlURL (upnpURL : string)
    : option url_URL * option error :=
  match url_Parse w upnpURL with
  | None => (None, Some ErrURLParse)
  | Some urlp =>
    match http_Get w upnpURL with
    | None => (None, Some ErrTransport)
    | Some (status, body) =>
      if negb (status =? 200)%Z then (None, Some ErrDescriptionStatus)
      else match decode_root w body with
           | None => (None, Some ErrXML)
           | Some device =>
               (VisitServices pick (InitURLFields urlp device) None, None)
           end
    end
  end.

(** [soapRequest] *)
Definition soapRequest (url method msg : string) : error + string :=
  let fm := "<?xml version=" +:+ dq +:+ "1.0" +:+ dq
            +:+ "?><s:Envelope xmlns:s=" +:+ dq
            +:+ "http://schemas.xmlsoap.org/soap/envelope/" +:+ dq
            +:+ " s:encodingStyle=" +:+ dq
            +:+ "http://schemas.xmlsoap.org/soap/encoding/" +:+ dq
            +:+ "><s:Body>" +:+ msg +:+ "</s:Body></s:Envelope>" in
  let action := dq +:+ "urn:schemas-upnp-org:service:WANIPConnection:1#"
                +:+ method +:+ dq in
  match http_Post w url action fm with
  | None => inl ErrTransport
  | Some (status, body) =>
      if negb (status =? 200)%Z then inl ErrSOAPStatus else inr body
  end.

(** [determineSelfIP(u)]: reads [u.Host], so a nil [u] panics. *)
Definition determineSelfIP (u : option url_URL) : result IP :=
  match u with
  | None => Panic
  | Some u =>
      match dial_local w (Host u) with
      | None => Fail ErrDial
      | Some ip => Ret ip
      end
  end.

(** [wurl.String()]: reads the fields of [wurl], so a nil [wurl] panics. *)
Definition wurl_String (u : option url_URL) : option string :=
  URL_String w <$> u.

(** [randInRange]: the arithmetic is that of uint16 and int32. *)
Definition randInRange (low high : Z) : Z :=
  ((Int31n w ((high - low) mod 65536) + low) mod 65536)%Z.

Definition TCP : Z := 6.
Definition UDP : Z := 17.

(** [func (p Protocol) String() string]; [None] is the panic. *)
Definition Protocol_String (p : Z) : option string :=
  if (p =? TCP)%Z then Some "TCP"
  else if (p =? UDP)%Z then Some "UDP"
  else None.

(** [html.EscapeString] *)
Fixpoint EscapeString (s : string) : string :=
  match s with
  | EmptyString => EmptyString
  | String c s' =>
      let n := Ascii.nat_of_ascii c in
      (if (n =? 38)%nat then "&amp;"
       else if (n =? 39)%nat then "&#39;"
       else if (n =? 60)%nat then "&lt;"
       else if (n =? 62)%nat then "&gt;"
       else if (n =? 34)%nat then "&#34;"
       else String c "") +:+ EscapeString s'
  end.

(** [uint32(duration.Seconds())], for a duration that is not negative. *)
Definition seconds32 (d : Duration) : Z := ((d / Second) mod 2 ^ 32)%Z.

Definition AddPortMapping_body (externalPort : Z) (proto : string)
    (internalPort : Z) (selfIP name : string) (secs : Z) : string :=
  "<u:AddPortMapping xmlns:u=" +:+ dq +:+ WANIPConnectionURN +:+ dq
  +:+ "><NewRemoteHost></NewRemoteHost><NewExternalPort>"
  +:+ pretty externalPort +:+ "</NewExternalPort><NewProtocol>" +:+ proto
  +:+ "</NewProtocol><NewInternalPort>" +:+ pretty internalPort
  +:+ "</NewInternalPort><NewInternalClient>" +:+ selfIP
  +:+ "</NewInternalClient><NewEnabled>1</NewEnabled><NewPortMappingDescription>"
  +:+ name +:+ "</NewPortMappingDescription><NewLeaseDuration>"
  +:+ pretty secs +:+ "</NewLeaseDuration></u:AddPortMapping>".

(** [Map]: returns the external port used. *)
Definition Map (upnpURL : string) (protocol : Z) (internalPort externalPort : Z)
    (name : string) (duration : Duration) : result Z :=
  let '(wurl, _) := getWANIPControlURL upnpURL in
  let externalPort :=
    if (externalPort =? 0)%Z then randInRange 1025 65000 else externalPort in
  match determineSelfIP wurl with
  | Panic => Panic
  | Fail e => Fail e
  | Ret selfIP =>
    match Protocol_String protocol with
    | None => Panic
    | Some proto =>
      let s := AddPortMapping_body externalPort proto internalPort
                 (IP_String w selfIP) (EscapeString name) (seconds32 duration) in
      match wurl_String wurl with
      | None => Panic
      | Some u =>
          match soapRequest u "AddPortMapping" s with
          | inl e => Fail e
          | inr _ => Ret externalPort
          end
      end
    end
  end.

Definition DeletePortMapping_body (externalPort : Z) (proto : string) : string :=
  "<u:DeletePortMapping xmlns:u=" +:+ dq +:+ WANIPConnectionURN +:+ dq
  +:+ "><NewRemoteHost></NewRemoteHost><NewExternalPort>"
  +:+ pretty externalPort +:+ "</NewExternalPort><NewProtocol>" +:+ proto
  +:+ "</NewProtocol></u:DeletePortMapping></s:Body></s:Envelope>".

(** [Unmap] *)
Definition Unmap (upnpURL : string) (protocol : Z) (externalPort : Z)
    : result unit :=
  let '(wurl, _) := getWANIPControlURL upnpURL in
  match Protocol_String protocol with
  | None => Panic
  | Some proto =>
    let s := DeletePortMapping_body externalPort proto in
    match wurl_String wurl with
    | None => Panic
    | Some u =>
        match soapRequest u "DeletePortMapping" s with
        | inl e => Fail e
        | inr _ => Ret tt
        end
    end
  end.

Definition GetExternalIPAddress_body : string :=
  "<u:GetExternalIPAddress xmlns:u=" +:+ dq +:+ WANIPConnectionURN +:+ dq +:+ "/>".

(** [GetExternalAddr] *)
Definition GetExternalAddr (upnpURL : string) : result IP :=
  let '(wurl, _) := getWANIPControlURL upnpURL in
  match wurl_String wurl with
  | None => Panic
  | Some u =>
    match soapRequest u "GetExternalIPAddress" GetExternalIPAddress_body with
    | inl e => Fail e
    | inr body =>
      match decode_envelope w body with
      | None => Fail ErrXML
      | Some data =>
        match decode_extaddr w data with
        | None => Fail ErrXML
        | Some addr =>
          match ParseIP w addr with
          | None => Fail ErrParseIP
          | Some ip => Ret ip
          end
        end
      end
    end
  end.

(** The services of a device in the order in which [VisitServices] calls
    its argument on them. *)
Fixpoint all_services (d : xDevice) : list xService :=
  match d with
  | mkDevice ss ds => ss ++ concat (all_services <$> ds)
  end.

(** The device description behind [upnpURL] gives no control URL: it cannot
    be fetched or parsed, or none of its services is a WANIPConnection:1
    service whose control URL parses. *)
Definition no_control_URL (upnpURL : string) : Prop :=
  url_Parse w upnpURL = None
  \/ http_Get w upnpURL = None
  \/ (exists status body,
        http_Get w upnpURL = Some (status, body) /\ status <> 200%Z)
  \/ (exists status body,
        http_Get w upnpURL = Some (status, body)
        /\ decode_root w body = None)
  \/ (exists status body device,
        http_Get w upnpURL = Some (status, body)
        /\ decode_root w body = Some device
        /\ forall s, s ∈ all_services device ->
                     ServiceType s = WANIPConnectionURN ->
                     url_Parse w (Str (ControlURL s)) = None).

End WithWorld.
End upnp.

(** ** The mapping object (portmap.go) *)
Module portmap.
Import GoTime Go.
Local Open Scope string_scope.

Definition TCP : Z := 6.
Definition UDP : Z := 17.

(** [type Config struct] *)
Record Config := mkConfig {
  Protocol : Z;
  Name : string;
  InternalPort : Z;
  ExternalPort : Z;
  Lifetime : Duration;
  Backoff : denet.Backoff
}.

Definition DefaultLifetime : Duration := 2 * Hour.

(** A channel of [struct{}]: whether it was closed, and how many values
    wait in its buffer. *)
Record chan := mkChan { closed : bool; pending : nat; capacity : nat }.

(** [make(chan struct{}, n)] *)
Definition make_chan (n : nat) : chan := mkChan false 0 n.

(** [close(c)]: closing a closed channel panics ([None]). *)
Definition close (c : chan) : option chan :=
  if closed c then None else Some (mkChan true (pending c) (capacity c)).

(** [select { case c <- struct{}{}: default: }]: the value is dropped when
    the buffer is full. *)
Definition try_send (c : chan) : chan :=
  if (pending c <? capacity c)%nat
  then mkChan (closed c) (S (pending c)) (capacity c)
  else c.

(** [type mapping struct]; the mutex guards the fields and holds no data. *)
Record mapping := mkMapping {
  cfg : Config;
  expireTime : Time;
  aborted : bool;
  abortChan : chan;
  notifyChan : chan;
  externalAddr : string;
  prevValue : string
}.

Definition set_ExternalPort (p : Z) (c : Config) : Config :=
  mkConfig (Protocol c) (Name c) (InternalPort c) p (Lifetime c) (Backoff c).
Definition set_Lifetime (l : Duration) (c : Config) : Config :=
  mkConfig (Protocol c) (Name c) (InternalPort c) (ExternalPort c) l (Backoff c).
Definition set_Backoff (b : denet.Backoff) (c : Config) : Config :=
  mkConfig (Protocol c) (Name c) (InternalPort c) (ExternalPort c) (Lifetime c) b.

Definition set_cfg (c : Config) (m : mapping) : mapping :=
  mkMapping c (expireTime m) (aborted m) (abortChan m) (notifyChan m)
            (externalAddr m) (prevValue m).
Definition set_expireTime (t : Time) (m : mapping) : mapping :=
  mkMapping (cfg m) t (aborted m) (abortChan m) (notifyChan m)
            (externalAddr m) (prevValue m).
Definition set_externalAddr (a : string) (m : mapping) : mapping :=
  mkMapping (cfg m) (expireTime m) (aborted m) (abortChan m) (notifyChan m)
            a (prevValue m).

(** What [New] answers. *)
Inductive new_result :=
| NewErrGlobalIP
| NewErrGateway
| NewMapping (m : mapping) (gwa : list IP).

(** [New]: [globallyRoutable] is what [IsGloballyRoutable()] returns and
    [gateways] what [gateway.GetIPs()] returns ([None]: an error).  The
    mapping returned is the one the controller starts from. *)
Definition New (globallyRoutable : bool) (gateways : option (list IP))
    (c : Config) : new_result :=
  if globallyRoutable then NewErrGlobalIP
  else match gateways with
       | None => NewErrGateway
       | Some gwa =>
           let c := if (Lifetime c =? 0)%Z then set_Lifetime DefaultLifetime c
                    else c in
           NewMapping (mkMapping c zero false (make_chan 0) (make_chan 1) "" "")
                      gwa
       end.

(** The channel operations a call performs. *)
Inductive chan_op := OpClose.

(** [Delete]: the mapping afterwards ([None] if the call panics) and the
    operations performed on [abortChan]. *)
Definition Delete (m : mapping) : option mapping * list chan_op :=
  if aborted m then (Some m, [])
  else match close (abortChan m) with
       | None => (None, [OpClose])
       | Some c =>
           (Some (mkMapping (cfg m) (expireTime m) true c (notifyChan m)
                            (externalAddr m) (prevValue m)), [OpClose])
       end.

(** [n] calls of [Delete] in a row; a panic ends the run. *)
Fixpoint Deletes (n : nat) (m : mapping) : option mapping * list chan_op :=
  match n with
  | O => (Some m, [])
  | S n' =>
      match Delete m with
      | (Some m', ops) =>
    let '(r, ops') := Deletes n' m' in (r, (ops ++ ops')%list)
      | (None, ops) => (None, ops)
      end
  end.

(** [isActive]; [now] is the reading of [time.Now()]. *)
Definition isActive (m : mapping) (now : Time) : bool :=
  negb (IsZero (expireTime m)) && After (expireTime m) now.

Fixpoint has_colon (s : string) : bool :=
  match s with
  | EmptyString => false
  | String c s' => (Ascii.nat_of_ascii c =? 58)%nat || has_colon s'
  end.

(** [net.JoinHostPort]: a host with a colon in it is put in brackets. *)
Definition JoinHostPort (host port : string) : string :=
  if has_colon host then "[" +:+ host +:+ "]:" +:+ port
  else host +:+ ":" +:+ port.

(** [strconv.FormatUint(v, 10)] *)
Definition FormatUint (v : Z) : string := pretty (Z.to_N v).

(** [ExternalAddr] *)
Definition ExternalAddr (m : mapping) (now : Time) : string :=
  if negb (isActive m now) || (ExternalPort (cfg m) =? 0)%Z then ""
  else JoinHostPort (externalAddr m) (FormatUint (ExternalPort (cfg m))).

(** [notify]: the second component tells whether the call went as far as
    the send on [notifyChan]. *)
Definition notify (m : mapping) (now : Time) : mapping * bool :=
  let ea := ExternalAddr m now in
  if String.eqb (prevValue m) ea then (m, false)
  else (mkMapping (cfg m) (expireTime m) (aborted m) (abortChan m)
                  (try_send (notifyChan m)) (externalAddr m) ea, true).

(** [setInactive] *)
Definition setInactive (m : mapping) (now : Time) : mapping * bool :=
  notify (set_expireTime zero m) now.

End portmap.

(** ** The mapping controller (package portmap, [portMappingLoop]) *)
Module controller.
Import GoTime Go portmap.
Local Open Scope Z_scope.

Inductive mode := modeNATPMP | modeUPnP.

Definition upnpWANIPConnectionURN : string :=
  "urn:schemas-upnp-org:service:WANIPConnection:1".

(** Where the controller goroutine stands.  It is observed at the top of the
    [for] loop, while one of the calls to the protocol clients is under way,
    in the [select] at the end of the loop body, and after it returned.
    The local variables of [tryNATPMP], [tryNATPMPGW], [tryUPnP] and
    [tryUPnPSvc] that are alive across a call are kept with the point. *)
Inductive pc :=
| PLoop
| PNatMap (gw : IP) (rest : list IP) (preferredLifetime : Duration)
| PNatExt (gw : IP) (expire : Time)
| PUnmap (svc : ssdp.Service) (rest : list ssdp.Service)
| PUpnpMap (svc : ssdp.Service) (rest : list ssdp.Service)
| PUpnpExt (svc : ssdp.Service)
| PSelect (wake : Time)
| PDone.

(** The mapping, the local variables of [portMappingLoop], and the part of
    the world the loop reads: the clock and the SSDP registry. *)
Record state := mkState {
  st_m : mapping;
  aborting : bool;
  md : mode;
  ok : bool;
  d : Duration;
  at_pc : pc;
  now : Time;
  byUSN : gmap string ssdp.Service
}.

Definition with_m (x : mapping) (s : state) : state :=
  mkState x (aborting s) (md s) (ok s) (d s) (at_pc s) (now s) (byUSN s).
Definition with_aborting (x : bool) (s : state) : state :=
  mkState (st_m s) x (md s) (ok s) (d s) (at_pc s) (now s) (byUSN s).
Definition with_md (x : mode) (s : state) : state :=
  mkState (st_m s) (aborting s) x (ok s) (d s) (at_pc s) (now s) (byUSN s).
Definition with_ok (x : bool) (s : state) : state :=
  mkState (st_m s) (aborting s) (md s) x (d s) (at_pc s) (now s) (byUSN s).
Definition with_d (x : Duration) (s : state) : state :=
  mkState (st_m s) (aborting s) (md s) (ok s) x (at_pc s) (now s) (byUSN s).
Definition with_pc (x : pc) (s : state) : state :=
  mkState (st_m s) (aborting s) (md s) (ok s) (d s) x (now s) (byUSN s).
Definition with_now (x : Time) (s : state) : state :=
  mkState (st_m s) (aborting s) (md s) (ok s) (d s) (at_pc s) x (byUSN s).
Definition with_byUSN (x : gmap string ssdp.Service) (s : state) : state :=
  mkState (st_m s) (aborting s) (md s) (ok s) (d s) (at_pc s) (now s) x.

(** What the controller does, as seen from outside. *)
Inductive event :=
| EvLoop                          (* an iteration enters the switch on mode *)
| EvTry (md : mode) (destroy : bool)   (* tryNATPMP / tryUPnP is called *)
| EvNatMap (gw : IP) (lifetime : Duration) (res : option (Z * Duration))
                                  (* natpmp.Map(gw, .., lifetime) returned *)
| EvNatExt (gw : IP) (res : option string)
| EvUnmap (svc : ssdp.Service) (success : bool)
| EvUpnpMap (svc : ssdp.Service) (res : option Z)
| EvUpnpExt (svc : ssdp.Service) (res : option string)
| EvSwitch (to : mode)            (* mode is reassigned, then continue *)
| EvReset                         (* Backoff.Reset() *)
| EvNextDelay (delay : Duration)  (* Backoff.NextDelay() returned delay *)
| EvSetInactive
| EvNotify                        (* notify() is called *)
| EvSleep (delay : Duration)      (* the select with time.After(delay) *)
| EvReturn.

(** What a call under way returns, or which case of the [select] fires. *)
Inductive reply :=
| RGo                                        (* nothing is awaited *)
| RNatMap (res : option (Z * Duration))      (* external port, lifetime *)
| RNatExt (res : option string)              (* extIP.String() *)
| RUnmap (success : bool)                    (* err == nil *)
| RUpnpMap (res : option Z)                  (* actualExternalPort *)
| RUpnpExt (res : option string)             (* extIP.String() *)
| RAbort                                     (* case <-m.abortChan *)
| RTimer.                                    (* case <-time.After(d) *)

Definition services (s : state) : list ssdp.Service :=
  ssdp.GetServicesByType (byUSN s) (now s) upnpWANIPConnectionURN.

Definition lIsActive (s : state) : bool := isActive (st_m s) (now s).

(** From the comment "If we are aborting" to the [select]. *)
Definition after_attempt (s : state) : state * list event :=
  let m := st_m s in
  if aborting s then
    (with_pc PDone (with_m (fst (setInactive m (now s))) s),
     [EvSetInactive; EvNotify; EvReturn])
  else if ok s then
    let m1 := set_cfg (set_Backoff (denet.Reset (Backoff (cfg m))) (cfg m)) m in
    (with_pc (PSelect (Add (now s) (d s))) (with_m (fst (notify m1 (now s))) s),
     [EvReset; EvNotify; EvSleep (d s)])
  else
    let '(dl, b) := denet.NextDelay (Backoff (cfg m)) in
    let m1 := set_cfg (set_Backoff b (cfg m)) m in
    if dl =? 0 then
      (with_pc PDone (with_d dl (with_m (fst (setInactive m1 (now s))) s)),
       [EvNextDelay dl; EvSetInactive; EvNotify; EvReturn])
    else
      (with_pc (PSelect (Add (now s) dl))
               (with_d dl (with_m (fst (notify m1 (now s))) s)),
       [EvNextDelay dl; EvNotify; EvSleep dl]).

(** [tryNATPMP] has returned [success]: the rest of [case modeNATPMP]. *)
Definition nat_done (success : bool) (s : state) : state * list event :=
  let s := with_ok success s in
  if success then
    after_attempt (with_d (Z.quot (Lifetime (cfg (st_m s))) 2) s)
  else if bool_decide (services s = []) then after_attempt s
  else (with_pc PLoop (with_md modeUPnP s), [EvSwitch modeUPnP]).

(** The loop of [tryNATPMP] at the gateways not yet tried, up to the call
    of [natpmp.Map] in [tryNATPMPGW]. *)
Definition try_nat (gws : list IP) (s : state) : state * list event :=
  match gws with
  | [] => nat_done false s
  | gw :: rest =>
      if aborting s && negb (lIsActive s) then nat_done true s
      else
        let preferredLifetime :=
          if aborting s then 0 else Lifetime (cfg (st_m s)) in
        (with_pc (PNatMap gw rest preferredLifetime) s, [])
  end.

(** [tryUPnP] has returned [success]: the rest of [case modeUPnP]. *)
Definition upnp_done (success : bool) (s : state) : state * list event :=
  after_attempt (with_d (1 * Hour) (with_ok success s)).

(** The loop of [tryUPnP] at the services not yet tried, up to the call of
    [upnp.Unmap] or [upnp.Map] in [tryUPnPSvc]. *)
Definition try_upnp (svcs : list ssdp.Service) (s : state)
    : state * list event :=
  match svcs with
  | [] => upnp_done false s
  | svc :: rest =>
      if aborting s then
        if negb (lIsActive s) then upnp_done true s
        else (with_pc (PUnmap svc rest) s, [])
      else (with_pc (PUpnpMap svc rest) s, [])
  end.

Definition emit (evs : list event) (r : state * list event)
    : state * list event :=
  (fst r, evs ++ snd r).

(** One step of the controller: from the point where it stands to the next
    one, given what it was waiting for.  [None]: the reply is not one the
    controller can receive where it stands. *)
Definition ctl_step (gwa : list IP) (r : reply) (s : state)
    : option (state * list event) :=
  let m := st_m s in
  match at_pc s, r with
  | PLoop, RGo =>
      if aborting s && negb (lIsActive s)
      then Some (with_pc PDone s, [EvReturn])
      else match md s with
           | modeNATPMP =>
               Some (emit [EvLoop; EvTry modeNATPMP (aborting s)]
                          (try_nat gwa s))
           | modeUPnP =>
               let svcs := services s in
               if bool_decide (svcs = [])
               then Some (with_pc PLoop (with_md modeNATPMP s),
                          [EvLoop; EvSwitch modeNATPMP])
               else Some (emit [EvLoop; EvTry modeUPnP (aborting s)]
                               (try_upnp svcs s))
           end
  | PNatMap gw rest pl, RNatMap res =>
      Some (emit [EvNatMap gw pl res]
        match res with
        | None => try_nat rest s
        | Some (externalPort, actualLifetime) =>
            let m1 := set_cfg (set_Lifetime actualLifetime
                                (set_ExternalPort externalPort (cfg m))) m in
            if pl =? 0 then nat_done true (with_m m1 s)
            else (with_pc (PNatExt gw (Add (now s) actualLifetime))
                          (with_m m1 s), [])
        end)
  | PNatExt gw expire, RNatExt res =>
      let m1 := match res with
                | Some ip => set_externalAddr ip m
                | None => m
                end in
      Some (emit [EvNatExt gw res]
                 (nat_done true (with_m (set_expireTime expire m1) s)))
  | PUnmap svc rest, RUnmap success =>
      Some (emit [EvUnmap svc success]
                 (if success then upnp_done true s else try_upnp rest s))
  | PUpnpMap svc rest, RUpnpMap res =>
      Some (emit [EvUpnpMap svc res]
        match res with
        | None => try_upnp rest s
        | Some actualExternalPort =>
            let m1 := set_cfg (set_ExternalPort actualExternalPort (cfg m))
                        (set_expireTime (Add (now s) (Lifetime (cfg m))) m) in
            if aborting s then upnp_done true (with_m m1 s)
            else (with_pc (PUpnpExt svc) (with_m m1 s), [])
        end)
  | PUpnpExt svc, RUpnpExt res =>
      let m1 := match res with
                | Some ip => set_externalAddr ip m
                | None => m
                end in
      Some (emit [EvUpnpExt svc res] (upnp_done true (with_m m1 s)))
  | PSelect wake, RAbort =>
      if closed (abortChan m)
      then Some (with_pc PLoop (with_aborting true s), [])
      else None
  | PSelect wake, RTimer =>
      if wake <=? now s then Some (with_pc PLoop s, []) else None
  | _, _ => None
  end.

(** What happens around the controller: time passes, another goroutine
    calls [Delete], the SSDP loop registers a beacon, the owner of the
    mapping takes a value from [NotifyChan()]; or the controller moves. *)
Inductive input :=
| InTick (dt : Duration)
| InDelete
| InBeacon (ev : ssdpbase.Event)
| InDrain
| InCtl (r : reply).

Definition step (gwa : list IP) (i : input) (s : state)
    : option (state * list event) :=
  match i with
  | InTick dt =>
      if 0 <=? dt then Some (with_now (Add (now s) dt) s, []) else None
  | InDelete =>
      match fst (Delete (st_m s)) with
      | Some m' => Some (with_m m' s, [])
      | None => None
      end
  | InBeacon ev =>
      Some (with_byUSN (ssdp.register (now s) ev (byUSN s)) s, [])
  | InDrain =>
      let c := notifyChan (st_m s) in
      match pending c with
      | O => None
      | S n =>
          let m := st_m s in
          Some (with_m (mkMapping (cfg m) (expireTime m) (aborted m)
                          (abortChan m) (mkChan (closed c) n (capacity c))
                          (externalAddr m) (prevValue m)) s, [])
      end
  | InCtl r => ctl_step gwa r s
  end.

(** The events of the iteration under way: a step taken at the top of the
    loop starts them afresh. *)
Definition iteration_log (i : input) (s : state) (log evs : list event)
    : list event :=
  match i, at_pc s with
  | InCtl _, PLoop => evs
  | _, _ => log ++ evs
  end.

(** A run: the state reached and the log of the last iteration. *)
Fixpoint run (gwa : list IP) (ins : list input) (s : state)
    (log : list event) : option (state * list event) :=
  match ins with
  | [] => Some (s, log)
  | i :: ins' =>
      match step gwa i s with
      | Some (s', evs) => run gwa ins' s' (iteration_log i s log evs)
      | None => None
      end
  end.

(** The state in which [New] starts the goroutine. *)
Definition start (m : mapping) (t0 : Time) (reg : gmap string ssdp.Service)
    : state :=
  mkState m false modeNATPMP false 0 PLoop t0 reg.

(** The states a controller started by [New] can be in, each with the log
    of its last iteration. *)
Inductive reachable (gwa : list IP) : state -> list event -> Prop :=
| reach_start c t0 reg m :
    New false (Some gwa) c = NewMapping m gwa ->
    reachable gwa (start m t0 reg) []
| reach_step s log i s' evs :
    reachable gwa s log ->
    step gwa i s = Some (s', evs) ->
    reachable gwa s' (iteration_log i s log evs).

(** *** Invariants of the reachable states *)

(** The log of an attempt in which [natpmp.Map] failed at the gateways
    [gws], and of one in which [upnp.Unmap] failed at the services [svcs]. *)
Definition nat_fails (pl : Duration) (gws : list IP) : list event :=
  (fun gw => EvNatMap gw pl None) <$> gws.
Definition unmap_fails (svcs : list ssdp.Service) : list event :=
  (fun svc => EvUnmap svc false) <$> svcs.

(** What holds of the local variables and of the log at each point. *)
Definition pc_inv (gwa : list IP) (s : state) (log : list event) : Prop :=
  match at_pc s with
  | PNatMap gw rest pl =>
      pl = (if aborting s then 0 else Lifetime (cfg (st_m s)))
      /\ exists tried, gwa = tried ++ gw :: rest
           /\ log = [EvLoop; EvTry modeNATPMP (aborting s)] ++ nat_fails pl tried
  | PUnmap svc rest =>
      aborting s = true
      /\ exists tried,
           log = [EvLoop; EvTry modeUPnP true] ++ unmap_fails tried
  | PNatExt _ _ | PUpnpMap _ _ | PUpnpExt _ | PSelect _ => aborting s = false
  | PLoop | PDone => True
  end.

Definition inv (gwa : list IP) (s : state) (log : list event) : Prop :=
  aborted (st_m s) = closed (abortChan (st_m s))
  /\ (aborting s = true -> aborted (st_m s) = true)
  /\ pc_inv gwa s log.

(** The calls a teardown attempt may make: [natpmp.Map] with lifetime 0 and
    [upnp.Unmap]. *)
Definition teardown_call (e : event) : Prop :=
  match e with
  | EvNatMap _ lifetime _ => lifetime = 0
  | EvUnmap _ _ => True
  | _ => False
  end.

(** The gateways or services an attempt under way has still to try. *)
Definition remaining (p : pc) : nat :=
  match p with
  | PNatMap _ rest _ => length rest
  | PUnmap _ rest => length rest
  | _ => 0
  end.

End controller.

(** ** Sample data, used to exercise the definitions *)
Module samples.
Import GoTime Go.
Local Open Scope string_scope.

(** A WANIPConnection service last seen at instant 1000 s. *)
Definition svc1 : ssdp.Service :=
  ssdp.mkService "http://192.168.1.1:5000/rootDesc.xml"
                 "urn:schemas-upnp-org:service:WANIPConnection:1"
                 "uuid:1::wanip" (1000 * Second).

Definition reg1 : gmap string ssdp.Service := {[ "uuid:1::wanip" := svc1 ]}.

(** A gateway and a configuration: TCP port 8080, lifetime left to the
    default. *)
Definition gw1 : IP := [192; 168; 1; 1].

Definition cfg1 : portmap.Config :=
  portmap.mkConfig portmap.TCP "http" 8080 8080 0
                   (denet.mkBackoff 0 (5 * Second) (120 * Second) 10 0).

(** The mapping [New] makes of [cfg1]. *)
Definition m1 : portmap.mapping :=
  portmap.mkMapping (portmap.set_Lifetime portmap.DefaultLifetime cfg1)
                    zero false (portmap.make_chan 0) (portmap.make_chan 1)
                    "" "".

(** The controller starts at instant 1000 s with an empty registry. *)
Definition s0 : controller.state := controller.start m1 (1000 * Second) ∅.

(** The gateway grants port 8080 for 3600 s and then does not answer the
    request for its external address. *)
Definition granted_no_ip : list controller.input :=
  [ controller.InCtl controller.RGo;
    controller.InCtl (controller.RNatMap (Some (8080, 3600 * Second)));
    controller.InCtl (controller.RNatExt None) ].

(** A reply to opcode 0 (external address) with result code 0, epoch 1 and
    the address 192.0.2.7, in a buffer with no room to spare. *)
Definition reply_ok : slice :=
  of_bytes [0; 128; 0; 0; 0; 0; 0; 1; 192; 0; 2; 7].

(** The same reply cut after the epoch: header and 4 bytes of payload. *)
Definition reply_short : slice := of_bytes [0; 128; 0; 0; 0; 0; 0; 1].

(** The cut reply read into a buffer of 16 bytes, zero beyond the datagram. *)
Definition reply_short_roomy : slice :=
  mkSlice [0; 128; 0; 0; 0; 0; 0; 1] [0; 0; 0; 0; 0; 0; 0; 0].

(** A datagram from another host. *)
Definition stray : natpmp.attempt :=
  natpmp.Received reply_ok [10; 0; 0; 9] 5351.

(** A world in which URLs parse and no device description can be fetched. *)
Definition unreachable_world : upnp.world :=
  upnp.mkWorld (fun u => Some (upnp.mkURL "http" "192.168.1.1:5000" u))
               (fun base u => u)
               (fun u => upnp.Path u)
               (fun _ => None)
               (fun _ => None)
               (fun _ => 0)
               (fun _ => Some [192; 168; 1; 20])
               (fun _ => "192.168.1.20")
               (fun _ _ _ => None)
               (fun _ => None)
               (fun _ => None)
               (fun _ => None).

(** [Delete] is called while the first call of [natpmp.Map] is under way. *)
Definition delete_in_flight : list controller.input :=
  [ controller.InCtl controller.RGo; controller.InDelete ].

(** The gateway then grants port 8080 for 3600 s and tells its address. *)
Definition granted : list controller.input :=
  [ controller.InCtl (controller.RNatMap (Some (8080, 3600 * Second)));
    controller.InCtl (controller.RNatExt (Some "192.0.2.7")) ].

(** The controller started at instant 1100 s with [svc1] in the registry,
    waiting for the answer of the only gateway to [natpmp.Map]. *)
Definition s_nat_wait : controller.state :=
  controller.with_pc (controller.PNatMap gw1 [] (2 * Hour))
    (controller.start m1 (1100 * Second) reg1).

(** The same controller after the call failed: mode UPnP, top of the loop. *)
Definition s_switched : controller.state :=
  controller.with_pc controller.PLoop
    (controller.with_md controller.modeUPnP
       (controller.with_ok false s_nat_wait)).

(** The mapping becomes active, [Delete] is called during the renewal
    sleep, the controller sees the abort and starts the teardown. *)
Definition teardown_inputs : list controller.input :=
  [ controller.InCtl controller.RGo;
    controller.InCtl (controller.RNatMap (Some (8080, 3600 * Second)));
    controller.InCtl (controller.RNatExt (Some "192.0.2.7"));
    controller.InDelete;
    controller.InCtl controller.RAbort;
    controller.InCtl controller.RGo ].

(** The mapping becomes active and its owner takes the notification; the
    renewal after 1800 s fails and the controller sleeps on its backoff;
    the mapping expires at 4600 s; at 4800 s [Delete] is called and the
    controller sees the abort. *)
Definition expired_then_deleted : list controller.input :=
  [ controller.InCtl controller.RGo;
    controller.InCtl (controller.RNatMap (Some (8080, 3600 * Second)));
    controller.InCtl (controller.RNatExt (Some "192.0.2.7"));
    controller.InDrain;
    controller.InTick (1800 * Second);
    controller.InCtl controller.RTimer;
    controller.InCtl controller.RGo;
    controller.InCtl (controller.RNatMap None);
    controller.InTick (2000 * Second);
    controller.InDelete;
    controller.InCtl controller.RAbort;
    controller.InCtl controller.RGo ].

End samples.

(** ** The function [ExternalAddr] of package portmap (external address
    without a mapping) *)
Module extaddr.
Import GoTime Go.

Inductive error :=
| ErrGatewayList               (* gateway.GetIPs failed *)
| ErrNatpmp (e : natpmp.error).

(** The loop over the gateways.  [err] is the variable of that name: the
    error of the last gateway asked, nil ([None]) before the first.  The
    value returned is the pair (address, error); [Ret None] is the pair
    (nil, nil).  [nets] gives, for each gateway, what its socket does. *)
Fixpoint ask_gateways (nets : IP -> option string * list natpmp.attempt)
    (gwa : list IP) (err : option error)
    : option (outcome error (option IP)) :=
  match gwa with
  | [] => Some (match err with
                | None => Ret None
                | Some e => Fail e
                end)
  | gw :: rest =>
      match natpmp.GetExternalAddr (fst (nets gw)) (snd (nets gw)) gw with
      | None => None
      | Some (Ret extaddr, _) => Some (Ret (Some extaddr))
      | Some (Fail e, _) => ask_gateways nets rest (Some (ErrNatpmp e))
      | Some (Panic, _) => Some Panic
      end
  end.

(** [ExternalAddr]: [routable] is what [isGloballyRoutable()] returns,
    [gateways] what [gateway.GetIPs()] returns ([None]: an error). *)
Definition ExternalAddr (routable : bool * IP) (gateways : option (list IP))
    (nets : IP -> option string * list natpmp.attempt)
    : option (outcome error (option IP)) :=
  if fst routable then Some (Ret (Some (snd routable)))
  else match gateways with
       | None => Some (Fail ErrGatewayList)
       | Some gwa => ask_gateways nets gwa None
       end.

(** What it means for the gateway [g] to answer with an error. *)
Definition refuses (nets : IP -> option string * list natpmp.attempt)
    (g : IP) : Prop :=
  exists e tr,
    natpmp.GetExternalAddr (fst (nets g)) (snd (nets g)) g
      = Some (Fail e, tr).

End extaddr.

(** ** Gateway discovery on Linux (package gateway) *)
Module gateway.
Import Go.

(** Constants of package syscall (Linux). *)
Definition RTM_NEWROUTE : Z := 24.
Definition NLMSG_DONE : Z := 3.
Definition RTA_GATEWAY : Z := 5.

(** A route attribute and a netlink message, as far as the loop looks
    into them; [m_attrs] is what [ParseNetlinkRouteAttr] makes of the
    message ([None]: an error). *)
Record attr := mkAttr { a_Type : Z; a_Value : slice }.
Record message := mkMessage { m_Type : Z; m_attrs : option (list attr) }.

(** [func (ip IP) To16() IP] of package net. *)
Definition To16 (ip : list Z) : IP :=
  if (length ip =? 4)%nat then v4InV6Prefix ++ ip
  else if (length ip =? 16)%nat then ip
  else [].

(** The inner loop over the attributes of one route; [None] is the panic
    of the slice expression [a.Value[0:4]]. *)
Fixpoint route_gateways (ra : list attr) (gwaddr : list IP)
    : option (list IP) :=
  match ra with
  | [] => Some gwaddr
  | a :: ra' =>
      if a_Type a =? RTA_GATEWAY then
        match slice_range (a_Value a) 0 4 with
        | Some ip => route_gateways ra' (gwaddr ++ [To16 (elems ip)])
        | None => None
        end
      else route_gateways ra' gwaddr
  end.

(** The loop labelled [loop] over the messages. *)
Fixpoint rib_gateways (ribm : list message) (gwaddr : list IP)
    : option (list IP) :=
  match ribm with
  | [] => Some gwaddr
  | m :: ribm' =>
      if m_Type m =? RTM_NEWROUTE then
        match m_attrs m with
        | None => rib_gateways ribm' gwaddr
        | Some ra =>
            match route_gateways ra gwaddr with
            | Some gwaddr' => rib_gateways ribm' gwaddr'
            | None => None
            end
        end
      else if m_Type m =? NLMSG_DONE then Some gwaddr
      else rib_gateways ribm' gwaddr
  end.

(** [getGatewayAddrs] (Linux) and [GetIPs]: [rib] is the routing table as
    [NetlinkRIB] and [ParseNetlinkMessage] deliver it ([None]: one of them
    failed). *)
Definition getGatewayAddrs (rib : option (list message))
    : outcome unit (list IP) :=
  match rib with
  | None => Fail tt
  | Some ribm =>
      match rib_gateways ribm [] with
      | Some gwaddr => Ret gwaddr
      | None => Panic
      end
  end.

Definition GetIPs := getGatewayAddrs.


(** The gateway attributes of a message all hold 4 bytes or more. *)
Definition roomy (m : message) : Prop :=
  forall ra, m_attrs m = Some ra ->
    Forall (fun a => a_Type a = RTA_GATEWAY -> (4 <= cap (a_Value a))%nat) ra.

End gateway.

(** ** The SSDP receiver (ssdp/ssdpbase/ssdp.go, [handleResponse]) and the
    registry loop (ssdp/ssdp.go, [loop]) *)
Module ssdpclient.
Import GoTime.
Local Open Scope string_scope.

(** An HTTP response, as far as [handleResponse] looks into it:
    [r_Location] is what [res.Location()] returns ([None]: an error). *)
Record response := mkResponse {
  r_StatusCode : Z;
  r_ST : string;
  r_USN : string;
  r_Location : option string
}.

(** [eventChan: make(chan Event, 10)] *)
Definition eventChan_capacity : nat := 10.

(** The event [handleResponse] makes of a response, if any. *)
Definition event_of (res : response) : option ssdpbase.Event :=
  if negb (r_StatusCode res =? 200)%Z then None
  else if String.eqb (r_ST res) "" then None
  else match r_Location res with
       | None => None
       | Some loc =>
           let usn := if String.eqb (r_USN res) "" then loc else r_USN res in
           Some (ssdpbase.mkEvent loc (r_ST res) usn)
       end.

(** [handleResponse]: [eventChan] is the buffer of the channel, oldest
    event first; an event that finds the buffer full is dropped. *)
Definition handleResponse (res : response) (eventChan : list ssdpbase.Event)
    : list ssdpbase.Event :=
  match event_of res with
  | None => eventChan
  | Some ev =>
      if (length eventChan <? eventChan_capacity)%nat
      then (eventChan ++ [ev])%list
      else eventChan
  end.

(** The registry after [loop] has taken the events [evs] from the channel,
    each at the instant paired with it. *)
Definition loop (evs : list (Time * ssdpbase.Event))
    (byUSN : gmap string ssdp.Service) : gmap string ssdp.Service :=
  foldl (fun reg te => ssdp.register (fst te) (snd te) reg) byUSN evs.

(** Every entry is filed under its own USN. *)
Definition keyed (byUSN : gmap string ssdp.Service) : Prop :=
  forall k v, byUSN !! k = Some v -> ssdp.USN v = k.

End ssdpclient.

(** ** Words for the statements about the controller *)
Module controller_words.
Import portmap.

(** The notification channel as [New] makes it, with at most one value
    waiting. *)
Definition notify_ok (c : chan) : Prop :=
  capacity c = 1%nat /\ (pending c <= 1)%nat /\ closed c = false.

End controller_words.

(** ** Words for the statements about the UPnP client *)
Module upnp_words.
Import upnp.

(** A service the closure of [getWANIPControlURL] accepts. *)
Definition eligible (s : xService) : Prop :=
  ServiceType s = WANIPConnectionURN /\ OK (ControlURL s) = true.

#[global] Instance eligible_dec s : Decision (eligible s).
Proof. unfold eligible. apply _. Defined.

(** [rand.Int31n(n)] returns a number from 0 to n - 1 when n is positive
    (it panics otherwise). *)
Definition Int31n_in_range (w : world) : Prop :=
  forall n, 0 < n -> 0 <= Int31n w n < n.

End upnp_words.

(** ** Wire formats of NAT-PMP, for the statements about [natpmp.Map] *)
Module wire.
Import Go.

(** The request of [natpmp.Map]: version, opcode, and the fields that
    [binary.Write] lays out. *)
Definition map_request (opc internalPort suggestedExternalPort secs : Z)
    : list Z :=
  [0; opc] ++ put16 0 ++ put16 internalPort ++ put16 suggestedExternalPort
  ++ put32 secs.

(** A reply to a mapping request, as RFC 6886 lays it out: version,
    opcode with bit 0x80, result code 0, epoch, internal port, external
    port, lifetime in seconds. *)
Definition map_reply (opc epoch internalPort externalPort secs : Z)
    : list Z :=
  [0; Z.lor 128 opc; 0; 0] ++ put32 epoch ++ put16 internalPort
  ++ put16 externalPort ++ put32 secs.

End wire.

(** ** More sample data *)
Module samples_more.
Import GoTime Go samples.
Local Open Scope string_scope.

(** Two gateways: the first cannot be reached, the second answers
    192.0.2.7. *)
Definition two_gateways (g : IP)
    : option string * list natpmp.attempt :=
  if bool_decide (g = samples.gw1)
  then (None, [natpmp.Received samples.reply_ok samples.gw1 5351])
  else (Some "network is unreachable", []).

(** A routing table as the kernel answers RTM_GETROUTE: a default route
    through 192.168.1.1 (attributes RTA_TABLE, RTA_GATEWAY and RTA_OIF),
    a link route without a gateway, and the closing message. *)
Definition rib1 : list gateway.message :=
  [ gateway.mkMessage 24
      (Some [ gateway.mkAttr 15 (of_bytes [254; 0; 0; 0]);
              gateway.mkAttr 5 (of_bytes gw1);
              gateway.mkAttr 4 (of_bytes [2; 0; 0; 0]) ]);
    gateway.mkMessage 24
      (Some [ gateway.mkAttr 15 (of_bytes [254; 0; 0; 0]);
              gateway.mkAttr 1 (of_bytes [192; 168; 1; 0]);
              gateway.mkAttr 4 (of_bytes [2; 0; 0; 0]) ]);
    gateway.mkMessage 3 None ].

(** A world with an Internet gateway device behind every URL: its root
    device has an embedded device with a layer-3 forwarding service and a
    WANIPConnection service; requests to the control URL succeed, and the
    random number generator returns the largest value it may. *)
Definition igd : upnp.xDevice :=
  upnp.mkDevice []
    [ upnp.mkDevice
        [ upnp.mkXService "urn:schemas-upnp-org:service:Layer3Forwarding:1"
            "urn:upnp-org:serviceId:L3Forwarding1"
            (upnp.mkURLField upnp.empty_URL false "/ctl/L3F");
          upnp.mkXService "urn:schemas-upnp-org:service:WANIPConnection:1"
            "urn:upnp-org:serviceId:WANIPConn1"
            (upnp.mkURLField upnp.empty_URL false "/ctl/IPConn") ]
        [] ].

Definition igd_world : upnp.world :=
  upnp.mkWorld (fun u => Some (upnp.mkURL "http" "192.168.1.1:5000" u))
               (fun base u => u)
               (fun u => "http://" +:+ upnp.Host u +:+ upnp.Path u)
               (fun _ => Some (200, "<root/>"))
               (fun _ => Some igd)
               (fun n => n - 1)
               (fun _ => Some [192; 168; 1; 20])
               (fun _ => "192.168.1.20")
               (fun _ _ _ => Some (200, "<s:Envelope/>"))
               (fun _ => Some "<u:GetExternalIPAddressResponse/>")
               (fun _ => Some "192.0.2.7")
               (fun _ => Some [192; 0; 2; 7]).

(** The sample mapping with port 8080 granted until instant 4600 s. *)
Definition m_granted : portmap.mapping :=
  portmap.set_externalAddr "192.0.2.7"
    (portmap.set_expireTime (4600 * Second)
       (portmap.set_cfg
          (portmap.set_Lifetime (3600 * Second) (portmap.cfg m1)) m1)).

(** The controller of [s_switched] waiting for the answer of the device
    of [svc1] to [upnp.Map]. *)
Definition s_upnp_wait : controller.state :=
  controller.with_pc (controller.PUpnpMap svc1 []) s_switched.

(** After the controller has returned: ten seconds pass and [Delete] is
    called once more. *)
Definition afterwards : list controller.input :=
  [ controller.InTick (10 * Second); controller.InDelete ].

End samples_more.

(** * Properties *)

(** ** SSDP registry *)
Section ssdp_facts.
Import GoTime ssdp.

Lemma fresh_iff st now v :
  fresh st (Add now (ssdpbase.BroadcastInterval * -3)) v = true <->
  ST v = st /\ now - LastSeen v < 3 * ssdpbase.BroadcastInterval.
Proof.
  unfold fresh, After, Add.
  rewrite andb_true_iff, bool_decide_eq_true, Z.ltb_lt. split; intros [? ?]; split; auto; lia.
Qed.

Lemma elem_of_GetServicesByType (byUSN : gmap string Service) now st v :
  v ∈ GetServicesByType byUSN now st <->
  (exists k, byUSN !! k = Some v) /\ ST v = st
  /\ now - LastSeen v < 3 * ssdpbase.BroadcastInterval.
Proof.
  unfold GetServicesByType. rewrite list_elem_of_filter, fresh_iff, list_elem_of_fmap.
  split.
  - intros [[? ?] [[k v'] [-> Hin]]]. apply elem_of_map_to_list in Hin.
    simpl. eauto.
  - intros [[k Hk] [? ?]]. split; [done|].
    exists (k, v). split; [done|]. by apply elem_of_map_to_list.
Qed.

(** C8. An entry of the registry whose ST is the type asked for and whose
    LastSeen is t is among the services returned by GetServicesByType at
    instant now if and only if now - t < 3 * BroadcastInterval; an entry
    exactly at the limit is left out; BroadcastInterval is 60 seconds. *)
Theorem GetServicesByType_freshness (byUSN : gmap string Service)
    (now : Time) (st k : string) (v : Service) :
  byUSN !! k = Some v ->
  ST v = st ->
  (v ∈ GetServicesByType byUSN now st <->
     now - LastSeen v < 3 * ssdpbase.BroadcastInterval)
  /\ (now - LastSeen v = 3 * ssdpbase.BroadcastInterval ->
      v ∉ GetServicesByType byUSN now st)
  /\ ssdpbase.BroadcastInterval = 60 * Second.
Proof.
  intros Hk Hst. split; [|split; [|reflexivity]].
  - rewrite elem_of_GetServicesByType. split; [tauto|]. eauto.
  - intros Heq Hin. apply elem_of_GetServicesByType in Hin. lia.
Qed.

(** The statement at a registry with one service, 179 s after its beacon. *)
Lemma GetServicesByType_freshness_witness :
  samples.reg1 !! "uuid:1::wanip"%string = Some samples.svc1
  /\ (samples.svc1 ∈ GetServicesByType samples.reg1 (1179 * Second)
                       (ST samples.svc1) <->
      1179 * Second - LastSeen samples.svc1 < 3 * ssdpbase.BroadcastInterval).
Proof.
  split; [reflexivity|].
  apply (GetServicesByType_freshness samples.reg1 (1179 * Second)
           (ST samples.svc1) "uuid:1::wanip" samples.svc1); reflexivity.
Defined.

End ssdp_facts.

(** ** The mapping object *)
Section mapping_facts.
Import GoTime portmap.
Local Open Scope string_scope.

Lemma isActive_true m now :
  isActive m now = true <-> expireTime m <> zero /\ now < expireTime m.
Proof.
  unfold isActive, IsZero, After, zero.
  rewrite andb_true_iff, negb_true_iff, Z.eqb_neq, Z.ltb_lt. tauto.
Qed.

Lemma isActive_false m now :
  isActive m now = false <-> expireTime m = zero \/ expireTime m <= now.
Proof.
  rewrite <- not_true_iff_false, isActive_true. unfold zero. lia.
Qed.

Lemma append_nonempty a b : b <> "" -> a +:+ b <> "".
Proof. destruct a; simpl; [done|discriminate]. Qed.

Lemma JoinHostPort_nonempty host port : JoinHostPort host port <> "".
Proof.
  unfold JoinHostPort. destruct (has_colon host).
  - discriminate.
  - apply append_nonempty. discriminate.
Qed.

Lemma ExternalAddr_nonempty m now :
  ExternalAddr m now <> "" <->
  isActive m now = true /\ ExternalPort (cfg m) <> 0%Z.
Proof.
  unfold ExternalAddr.
  destruct (isActive m now); simpl.
  - destruct (Z.eqb_spec (ExternalPort (cfg m)) 0).
    + split; [done|]. intros [_ ?]; done.
    + split; [done|]. intros _. apply JoinHostPort_nonempty.
  - split; [done|]. intros [? _]; done.
Qed.

Lemma ExternalAddr_inactive m now :
  isActive m now = false -> ExternalAddr m now = "".
Proof. unfold ExternalAddr. by intros ->. Qed.

(** C1 (amended). ExternalAddr() is the empty string exactly when the
    mapping is inactive (expiry unset or not in the future) or its external
    port is 0; otherwise it is JoinHostPort of the recorded external address
    and the decimal port, which is address:port for an address without a
    colon and :port when no external address is recorded.  A non-empty
    result implies expiry > now and external port <> 0; it does not imply
    that the external address is known. *)
Theorem ExternalAddr_spec (m : mapping) (now : Time) :
  (ExternalAddr m now = "" <->
     (expireTime m = zero \/ expireTime m <= now)%Z
     \/ ExternalPort (cfg m) = 0%Z)
  /\ (ExternalAddr m now <> "" ->
      ExternalAddr m now =
        JoinHostPort (externalAddr m) (FormatUint (ExternalPort (cfg m))))
  /\ (ExternalAddr m now <> "" -> has_colon (externalAddr m) = false ->
      ExternalAddr m now =
        externalAddr m +:+ ":" +:+ FormatUint (ExternalPort (cfg m)))
  /\ (ExternalAddr m now <> "" -> externalAddr m = "" ->
      ExternalAddr m now = ":" +:+ FormatUint (ExternalPort (cfg m)))
  /\ (ExternalAddr m now <> "" ->
      (now < expireTime m)%Z /\ ExternalPort (cfg m) <> 0%Z).
Proof.
  assert (Hj : ExternalAddr m now <> "" ->
               ExternalAddr m now =
               JoinHostPort (externalAddr m) (FormatUint (ExternalPort (cfg m)))).
  { intros Hne. apply ExternalAddr_nonempty in Hne as [Ha Hp].
    unfold ExternalAddr. rewrite Ha. apply Z.eqb_neq in Hp. by rewrite Hp. }
  repeat split.
  - intros He. destruct (decide (ExternalAddr m now = "")) as [_|Hn]; [|done].
    destruct (isActive m now) eqn:Ha.
    + right. destruct (decide (ExternalPort (cfg m) = 0%Z)) as [|Hp]; [done|].
      exfalso. by apply (proj2 (ExternalAddr_nonempty m now)).
    + left. by apply isActive_false.
  - intros H. destruct (decide (ExternalAddr m now = "")) as [|Hn]; [done|].
    apply ExternalAddr_nonempty in Hn as [Ha Hp].
    apply isActive_true in Ha. unfold zero in *. lia.
  - exact Hj.
  - intros Hne Hc. rewrite (Hj Hne). unfold JoinHostPort. by rewrite Hc.
  - intros Hne He. rewrite (Hj Hne), He. reflexivity.
  - apply ExternalAddr_nonempty in H as [Ha _].
    apply isActive_true in Ha as [_ ?]. done.
  - apply ExternalAddr_nonempty in H as [_ Hp]. done.
Qed.

(** C1, as stated, fails: from the start state, after the gateway granted
    port 8080 and did not tell its external address, ExternalAddr() is
    ":8080", not empty, while no external address is known. *)
Lemma ExternalAddr_without_ip :
  exists s log,
    controller.run [samples.gw1] samples.granted_no_ip samples.s0 []
      = Some (s, log)
    /\ ExternalAddr (controller.st_m s) (controller.now s) = ":8080"
    /\ ExternalAddr (controller.st_m s) (controller.now s) <> ""
    /\ externalAddr (controller.st_m s) = "".
Proof.
  eexists _, _. split; [vm_compute; reflexivity|].
  split; [vm_compute; reflexivity|]. split; [|reflexivity].
  vm_compute. discriminate.
Qed.

Lemma Deletes_aborted n m :
  aborted m = true -> Deletes n m = (Some m, []).
Proof.
  intros Ha. induction n as [|n IH]; simpl; [done|].
  unfold Delete. rewrite Ha, IH. reflexivity.
Qed.

(** C9. Delete() is idempotent: one or more calls in a row leave the
    mapping as a single call does, and perform the same operations on
    abortChan as a single call, which closes it at most once. *)
Theorem Delete_idempotent (m : mapping) (n : nat) :
  Deletes (S n) m = Delete m
  /\ (length (snd (Deletes (S n) m)) <= 1)%nat
  /\ (aborted m = closed (abortChan m) ->
      exists m', fst (Delete m) = Some m' /\ aborted m' = true
                 /\ closed (abortChan m') = true).
Proof.
  assert (H1 : Deletes (S n) m = Delete m).
  { simpl. unfold Delete. destruct (aborted m) eqn:Ha.
    - rewrite Deletes_aborted by done. reflexivity.
    - destruct (close (abortChan m)) as [c|]; [|done].
      rewrite Deletes_aborted by done. reflexivity. }
  split; [done|]. split.
  - rewrite H1. unfold Delete.
    destruct (aborted m); [simpl; lia|].
    destruct (close (abortChan m)); simpl; lia.
  - intros Hinv. unfold Delete, close. destruct (aborted m) eqn:Ha.
    + eauto.
    + rewrite <- Hinv. simpl. eauto.
Qed.

End mapping_facts.

(** ** The backoff clock and the NAT-PMP transaction *)
Section natpmp_facts.
Import GoTime Go natpmp.

Lemma NextDelay_live b dl b' :
  denet.NextDelay b = (dl, b') -> dl <> 0 ->
  denet.MaxTries b' = denet.MaxTries b
  /\ denet.CurrentTry b' = denet.CurrentTry b + 1
  /\ (denet.MaxTries b = 0 \/ denet.CurrentTry b < denet.MaxTries b).
Proof.
  unfold denet.NextDelay.
  destruct (negb (denet.MaxTries b =? 0) && (denet.MaxTries b <=? denet.CurrentTry b)) eqn:E;
    intros [= <- <-] Hdl; [done|].
  simpl. split; [done|]. split; [done|].
  apply andb_false_iff in E as [E|E].
  - left. apply negb_false_iff, Z.eqb_eq in E. done.
  - right. apply Z.leb_gt in E. done.
Qed.

(** The loop returns within [fuel] turns when the clock has a limit that
    is less than [fuel] tries away. *)
Lemma request_loop_total fuel dst opc msg rconf net :
  denet.MaxTries rconf <> 0 ->
  denet.CurrentTry rconf <= denet.MaxTries rconf ->
  denet.MaxTries rconf - denet.CurrentTry rconf < Z.of_nat fuel ->
  is_Some (request_loop fuel dst opc msg rconf net).
Proof.
  revert rconf net. induction fuel as [|fuel IH]; intros rconf net Hn Hle Hlt.
  - lia.
  - simpl. destruct (denet.NextDelay rconf) as [maxtime rconf'] eqn:End.
    destruct (Z.eqb_spec maxtime 0) as [|Hz]; [eauto|].
    destruct (NextDelay_live _ _ _ End Hz) as (Hm & Hc & Hl).
    assert (Hrec : forall n', is_Some (request_loop fuel dst opc msg rconf' n')).
    { intros n'. apply IH; [congruence| |]; rewrite Hm, Hc; lia. }
    destruct (Hrec (tail net)) as [[r tr] Hr].
    destruct (head net) as [[e|e| |e|res ip port]|];
      try rewrite Hr; try (eexists; reflexivity).
    destruct (wrong_source dst ip port); [eauto|].
    destruct (too_short res); [eauto|].
    destruct (wrong_header opc res); [eauto|].
    destruct (negb _); [eauto|].
    destruct (slice_from res 4); eauto.
Qed.

(** The deadline windows of a transaction are the first delays of its
    clock, none of them zero. *)
Lemma request_loop_deadlines fuel dst opc msg rconf net r tr :
  request_loop fuel dst opc msg rconf net = Some (r, tr) ->
  deadlines tr `prefix_of` denet.delays fuel rconf
  /\ Forall (fun dl => dl <> 0) (deadlines tr).
Proof.
  revert rconf net r tr. induction fuel as [|fuel IH]; intros rconf net r tr; [done|].
  simpl. destruct (denet.NextDelay rconf) as [maxtime rconf'].
  destruct (Z.eqb_spec maxtime 0) as [|Hz].
  { intros [= <- <-]. split; [apply prefix_nil|constructor]. }
  assert (Hstop : forall acts : list action,
            deadlines (ASetDeadline maxtime :: acts) = maxtime :: deadlines acts)
    by reflexivity.
  assert (Hagain :
    match request_loop fuel dst opc msg rconf' (tail net) with
    | Some (r0, tr0) => Some (r0, ASetDeadline maxtime :: AWrite msg :: ARead :: tr0)
    | None => None
    end = Some (r, tr) ->
    deadlines tr `prefix_of` maxtime :: denet.delays fuel rconf'
    /\ Forall (fun dl => dl <> 0) (deadlines tr)).
  { destruct (request_loop fuel dst opc msg rconf' (tail net)) as [[r0 tr0]|] eqn:E;
      [|done].
    intros [= <- <-]. destruct (IH _ _ _ _ E) as [Hp Hf].
    split; [by apply prefix_cons|by constructor]. }
  assert (Hone : forall acts : list action, deadlines acts = [] ->
    deadlines (ASetDeadline maxtime :: acts) `prefix_of` maxtime :: denet.delays fuel rconf'
    /\ Forall (fun dl => dl <> 0) (deadlines (ASetDeadline maxtime :: acts))).
  { intros acts Ha. rewrite Hstop, Ha. split.
    - apply prefix_cons, prefix_nil.
    - by repeat constructor. }
  destruct (head net) as [[e|e| |e|res ip port]|]; try exact Hagain;
    try (intros [= <- <-]; by apply Hone).
  destruct (wrong_source dst ip port); [exact Hagain|].
  destruct (too_short res); [exact Hagain|].
  destruct (wrong_header opc res); [exact Hagain|].
  destruct (negb _); [intros [= <- <-]; by apply Hone|].
  destruct (slice_from res 4); intros [= <- <-]; by apply Hone.
Qed.

Lemma prefix_of_schedule (l : list Duration) :
  l `prefix_of` schedule ++ [0] -> Forall (fun dl => dl <> 0) l ->
  l `prefix_of` schedule.
Proof.
  intros [k Hk] Hf.
  destruct (decide (k = [])) as [->|Hne].
  - rewrite app_nil_r in Hk. subst l. apply Forall_app in Hf as [_ Hf].
    by inversion Hf.
  - destruct (exists_last Hne) as (k' & x & ->).
    rewrite app_assoc in Hk. apply app_inj_tail in Hk as [-> _].
    by exists k'.
Qed.

(** A network from which nothing arrives behaves like the empty script. *)
Lemma request_loop_silent fuel dst opc msg rconf net :
  Forall (eq ReadTimeout) net ->
  request_loop fuel dst opc msg rconf net
  = request_loop fuel dst opc msg rconf [].
Proof.
  revert rconf net. induction fuel as [|fuel IH]; intros rconf net Hs; [done|].
  simpl. destruct (denet.NextDelay rconf) as [maxtime rconf'].
  destruct (maxtime =? 0); [done|].
  destruct Hs as [|a net <- Hs]; simpl; [done|].
  by rewrite (IH rconf' net Hs).
Qed.

(** C6. The transaction layer is configured with 9 tries, an initial
    delay of 250 ms, a maximal delay of 64 s reached after 8 doublings; a
    clock reset at the start of the transaction yields 250 ms, 500 ms, 1 s,
    2 s, 4 s, 8 s, 16 s, 32 s, 64 s and then zero; every transaction
    returns, the deadline windows of its attempts being the first delays
    of that sequence; and when nothing arrives each delay is in turn the
    deadline of one attempt, after which the request is sent again, nine
    times in all, and the transaction fails with the timeout error. *)
Theorem natpmp_backoff_schedule (net : list attempt) (dst : IP) (opc : Z)
    (data : list Z) :
  backoff = denet.mkBackoff 9 (250 * Millisecond) (64 * Second) 8 0
  /\ denet.delays 10 (denet.Reset backoff) = schedule ++ [0]
  /\ (exists r tr, makeRequest None net dst opc data = Some (r, tr)
                   /\ deadlines tr `prefix_of` schedule)
  /\ (Forall (eq ReadTimeout) net ->
      makeRequest None net dst opc data
      = Some (Fail ErrTimeout,
              concat (turn ([version0; opc] ++ data) <$> schedule))).
Proof.
  split; [reflexivity|]. split; [reflexivity|]. split.
  - unfold makeRequest.
    destruct (request_loop_total (max_turns backoff) dst opc
                ([version0; opc] ++ data) (denet.Reset backoff) net)
      as [[r tr] Hr]; [done|done|done|].
    exists r, tr. split; [done|].
    apply request_loop_deadlines in Hr as [Hp Hf].
    by apply prefix_of_schedule.
  - intros Hs. unfold makeRequest. rewrite request_loop_silent by done.
    reflexivity.
Qed.

Lemma discarded_iff dst opc res ip port :
  discarded dst opc res ip port = true <->
  IP_Equal ip dst = false \/ port <> hostToGatewayPort
  \/ (len res < 4)%nat
  \/ nth 0 (elems res) 0 <> 0
  \/ nth 1 (elems res) 0 <> Z.lor 128 opc.
Proof.
  unfold discarded, wrong_source, too_short, wrong_header.
  rewrite !orb_true_iff, !negb_true_iff, !Z.eqb_neq, Nat.ltb_lt. tauto.
Qed.

(** C5 (amended). A datagram is discarded when its source address or port
    is not (gateway, 5351), when it is shorter than 4 bytes, when its
    version byte is not 0 or when its opcode is not the request's opcode
    with bit 0x80 set.  After a discard the loop goes on exactly as after a
    read timeout: the transaction continues with the clock advanced by the
    delay already consumed, so its next turn takes the next delay as a new
    deadline and sends the request again (or fails with the timeout error
    when the clock is exhausted). *)
Theorem discard_like_timeout (fuel : nat) (dst : IP) (opc : Z)
    (msg : list Z) (rconf : denet.Backoff) (res : slice) (ip : IP)
    (port : Z) (net : list attempt) :
  IP_Equal ip dst = false \/ port <> hostToGatewayPort
  \/ (len res < 4)%nat
  \/ nth 0 (elems res) 0 <> version0
  \/ nth 1 (elems res) 0 <> Z.lor 128 opc ->
  request_loop fuel dst opc msg rconf (Received res ip port :: net)
  = request_loop fuel dst opc msg rconf (ReadTimeout :: net)
  /\ request_loop (S fuel) dst opc msg rconf (Received res ip port :: net)
     = (let '(maxtime, rconf') := denet.NextDelay rconf in
        if maxtime =? 0 then Some (Fail ErrTimeout, [])
        else match request_loop fuel dst opc msg rconf' net with
             | Some (r, tr) => Some (r, turn msg maxtime ++ tr)
             | None => None
             end).
Proof.
  intros Hd. apply discarded_iff in Hd.
  unfold discarded in Hd.
  assert (Hstep : forall n,
    request_loop (S n) dst opc msg rconf (Received res ip port :: net)
    = (let '(maxtime, rconf') := denet.NextDelay rconf in
        if maxtime =? 0 then Some (Fail ErrTimeout, [])
        else match request_loop n dst opc msg rconf' net with
             | Some (r, tr) => Some (r, turn msg maxtime ++ tr)
             | None => None
             end)).
  { intros n. simpl. destruct (denet.NextDelay rconf) as [maxtime rconf'].
    destruct (maxtime =? 0); [done|].
    destruct (wrong_source dst ip port); [done|].
    destruct (too_short res); [done|].
    destruct (wrong_header opc res); [done|]. discriminate. }
  split; [|apply Hstep].
  destruct fuel as [|n]; [done|]. rewrite Hstep. simpl.
  destruct (denet.NextDelay rconf) as [maxtime rconf']. done.
Qed.

(** The statement at a datagram that comes from another host. *)
Lemma discard_like_timeout_witness :
  IP_Equal [10; 0; 0; 9] samples.gw1 = false
  /\ request_loop 10 samples.gw1 0 [0; 0] (denet.Reset backoff)
       (Received samples.reply_ok [10; 0; 0; 9] 5351 :: [])
     = request_loop 10 samples.gw1 0 [0; 0] (denet.Reset backoff)
         (ReadTimeout :: []).
Proof.
  split; [reflexivity|].
  exact (proj1 (discard_like_timeout 10 samples.gw1 0 [0; 0]
                  (denet.Reset backoff) samples.reply_ok [10; 0; 0; 9] 5351 []
                  (or_introl eq_refl))).
Defined.

(** C5, as stated, fails: a datagram from another host is discarded, and
    the transaction then takes the second delay (500 ms) as a new deadline
    and sends the request a second time before it reads the reply. *)
Lemma discard_starts_new_attempt :
  makeRequest None [samples.stray; Received samples.reply_ok samples.gw1 5351]
              samples.gw1 opcGetExternalAddr []
  = Some (Ret (of_bytes [0; 0; 0; 1; 192; 0; 2; 7]),
          [ASetDeadline (250 * Millisecond); AWrite [0; 0]; ARead;
           ASetDeadline (500 * Millisecond); AWrite [0; 0]; ARead]).
Proof. reflexivity. Qed.

(** [makeRequest] has no short-response error. *)
Lemma request_loop_not_short fuel dst opc msg rconf net r tr :
  request_loop fuel dst opc msg rconf net = Some (r, tr) ->
  r <> Fail ErrShortResponse.
Proof.
  revert rconf net r tr. induction fuel as [|fuel IH]; intros rconf net r tr; [done|].
  simpl. destruct (denet.NextDelay rconf) as [maxtime rconf'].
  destruct (maxtime =? 0); [by intros [= <- <-]|].
  assert (Hagain :
    match request_loop fuel dst opc msg rconf' (tail net) with
    | Some (r0, tr0) => Some (r0, ASetDeadline maxtime :: AWrite msg :: ARead :: tr0)
    | None => None
    end = Some (r, tr) -> r <> Fail ErrShortResponse).
  { destruct (request_loop fuel dst opc msg rconf' (tail net)) as [[r0 tr0]|] eqn:E;
      [|done].
    intros [= <- <-]. by eapply IH. }
  destruct (head net) as [[e|e| |e|res ip port]|]; try exact Hagain;
    try by intros [= <- <-].
  destruct (wrong_source dst ip port); [exact Hagain|].
  destruct (too_short res); [exact Hagain|].
  destruct (wrong_header opc res); [exact Hagain|].
  destruct (negb _); [by intros [= <- <-]|].
  destruct (slice_from res 4); by intros [= <- <-].
Qed.

(** What [GetExternalAddr] does with the payload of a successful exchange:
    bytes 4 to 8 when it has them, otherwise whatever the buffer holds
    behind the datagram, or a panic when the buffer ends before byte 8;
    in no case the short-response error. *)
Lemma GetExternalAddr_payload dial net gw r tr :
  makeRequest dial net gw opcGetExternalAddr [] = Some (Ret r, tr) ->
  ((8 <= len r)%nat ->
   GetExternalAddr dial net gw = Some (Ret (take 4 (drop 4 (elems r))), tr))
  /\ ((cap r < 8)%nat -> GetExternalAddr dial net gw = Some (Panic, tr))
  /\ ((len r < 8 <= cap r)%nat ->
      GetExternalAddr dial net gw
      = Some (Ret (take 4 (drop 4 (elems r ++ spare r))), tr)).
Proof.
  intros Hm. unfold GetExternalAddr. rewrite Hm. unfold slice_range.
  repeat split.
  - intros Hl. assert (Hc : (8 <=? cap r)%nat = true).
    { apply Nat.leb_le. unfold cap, len in *. lia. }
    rewrite Hc. simpl. do 3 f_equal.
    unfold len in Hl. rewrite drop_app_le by lia.
    rewrite take_app_le; [done|]. rewrite length_drop. lia.
  - intros Hc. apply Nat.leb_gt in Hc. rewrite Hc. done.
  - intros [_ Hc]. apply Nat.leb_le in Hc. rewrite Hc. done.
Qed.

Lemma GetExternalAddr_never_short dial net gw out tr :
  GetExternalAddr dial net gw = Some (out, tr) ->
  out <> Fail ErrShortResponse.
Proof.
  unfold GetExternalAddr.
  destruct (makeRequest dial net gw opcGetExternalAddr []) as [[r tr0]|] eqn:E;
    [|done].
  assert (Hr : r <> Fail ErrShortResponse).
  { unfold makeRequest in E. destruct dial; [by injection E as <- <-|].
    by eapply request_loop_not_short. }
  destruct r as [r|e|].
  - destruct (slice_range r 4 8); by intros [= <- <-].
  - intros [= <- <-] [= ->]. by apply Hr.
  - by intros [= <- <-].
Qed.

(** C7, at the failing input.  The gateway answers the request for the
    external address with the 4-byte header and the 4-byte epoch only.
    [GetExternalAddr] panics on the slice r[4:8] when the receive buffer
    ends with the datagram, and returns the four bytes that lie behind the
    datagram in a larger buffer; it does not fail with the short-response
    error, which [Map] returns for a payload cut in the same way. *)
Theorem GetExternalAddr_short_payload :
  GetExternalAddr None [Received samples.reply_short samples.gw1 5351]
                  samples.gw1
  = Some (Panic, turn [0; 0] (250 * Millisecond))
  /\ GetExternalAddr None
       [Received samples.reply_short_roomy samples.gw1 5351] samples.gw1
     = Some (Ret [0; 0; 0; 0], turn [0; 0] (250 * Millisecond))
  /\ fst <$> Map None
       [Received (of_bytes [0; 130; 0; 0; 0; 0; 0; 1]) samples.gw1 5351]
       samples.gw1 TCP 8080 8080 (3600 * Second)
     = Some (Fail ErrShortResponse).
Proof. repeat split; reflexivity. Qed.

End natpmp_facts.

(** ** The UPnP client *)
Section upnp_facts.
Import GoTime Go upnp.
Variable w : world.

(** Induction on devices, with the hypothesis for every sub-device. *)
Lemma xDevice_nested_ind (P : xDevice -> Prop) :
  (forall ss ds, Forall P ds -> P (mkDevice ss ds)) ->
  forall d, P d.
Proof.
  intros Hstep. fix IH 1. intros [ss ds]. apply Hstep.
  revert ds. fix IHds 1. intros [|d ds]; constructor.
  - apply IH.
  - apply IHds.
Qed.

Lemma VisitServices_fold {A} (f : xService -> A -> A) d acc :
  VisitServices f d acc = fold_left (fun a s => f s a) (all_services d) acc.
Proof.
  revert acc. induction d as [ss ds IH] using xDevice_nested_ind. intros acc.
  simpl. rewrite fold_left_app.
  generalize (fold_left (fun a s => f s a) ss acc) as acc'.
  induction IH as [|d ds Hd _ IHds]; intros acc'; simpl; [done|].
  rewrite fold_left_app, <- Hd. apply IHds.
Qed.

Lemma all_services_InitURLFields base d :
  all_services (InitURLFields w base d)
  = Service_InitURLFields w base <$> all_services d.
Proof.
  induction d as [ss ds IH] using xDevice_nested_ind. simpl.
  rewrite fmap_app. f_equal.
  induction IH as [|d ds Hd _ IHds]; simpl; [done|].
  rewrite fmap_app, Hd. f_equal. apply IHds.
Qed.

Lemma fold_pick_Some l u :
  fold_left (fun a s => pick s a) l (Some u) = Some u.
Proof.
  induction l as [|s l IH]; simpl; [done|].
  unfold pick at 2. rewrite bool_decide_eq_true_2 by eauto.
  rewrite orb_true_r. simpl. apply IH.
Qed.

Lemma fold_pick_None l :
  Forall (fun s => ServiceType s = WANIPConnectionURN ->
                   OK (ControlURL s) = false) l ->
  fold_left (fun a s => pick s a) l None = None.
Proof.
  induction 1 as [|s l Hs _ IH]; simpl; [done|].
  unfold pick at 2.
  destruct (String.eqb_spec (ServiceType s) WANIPConnectionURN) as [He|]; simpl.
  - rewrite (Hs He). simpl. apply IH.
  - apply IH.
Qed.

Lemma no_control_URL_nil upnpURL :
  no_control_URL w upnpURL -> fst (getWANIPControlURL w upnpURL) = None.
Proof.
  unfold getWANIPControlURL.
  intros [H|[H|[(st & body & H & Hst)|[(st & body & H & Hd)
                                      |(st & body & dev & H & Hd & Hs)]]]].
  - by rewrite H.
  - destruct (url_Parse w upnpURL); [|done]. by rewrite H.
  - destruct (url_Parse w upnpURL); [|done]. rewrite H.
    apply Z.eqb_neq in Hst. by rewrite Hst.
  - destruct (url_Parse w upnpURL); [|done]. rewrite H, Hd.
    by destruct (negb _).
  - destruct (url_Parse w upnpURL) as [base|]; [|done]. rewrite H, Hd.
    destruct (negb _); [done|]. simpl.
    rewrite VisitServices_fold, all_services_InitURLFields.
    apply fold_pick_None, Forall_fmap, Forall_forall.
    intros s Hin Ht. simpl in *. unfold URLField_InitURLFields.
    by rewrite (Hs s Hin Ht).
Qed.

(** An error of [getWANIPControlURL] always comes with a nil URL. *)
Lemma getWANIPControlURL_error upnpURL e :
  snd (getWANIPControlURL w upnpURL) = Some e ->
  fst (getWANIPControlURL w upnpURL) = None.
Proof.
  unfold getWANIPControlURL.
  destruct (url_Parse w upnpURL); [|done].
  destruct (http_Get w upnpURL) as [[st body]|]; [|done].
  destruct (negb _); [done|].
  destruct (decode_root w body); done.
Qed.

(** C10. When the device description cannot be fetched or parsed, or has
    no WANIPConnection:1 service with a control URL that parses,
    [getWANIPControlURL] returns a nil URL; [Map], [Unmap] and
    [GetExternalAddr] drop the error returned with it and dereference the
    nil URL: each of the three calls panics and none returns an error. *)
Theorem nil_control_URL_panics (upnpURL : string) (protocol : Z)
    (internalPort externalPort : Z) (name : string) (duration : Duration) :
  no_control_URL w upnpURL ->
  fst (getWANIPControlURL w upnpURL) = None
  /\ Map w upnpURL protocol internalPort externalPort name duration = Panic
  /\ Unmap w upnpURL protocol externalPort = Panic
  /\ GetExternalAddr w upnpURL = Panic.
Proof.
  intros Hn. apply no_control_URL_nil in Hn. split; [done|].
  unfold Map, Unmap, GetExternalAddr.
  destruct (getWANIPControlURL w upnpURL) as [wurl err]. simpl in Hn. subst wurl.
  simpl. repeat split.
  by destruct (Protocol_String protocol).
Qed.

End upnp_facts.

(** The statement in a world where the description cannot be fetched. *)
Lemma nil_control_URL_panics_witness :
  upnp.Map samples.unreachable_world "http://192.168.1.1:5000/rootDesc.xml"
           upnp.TCP 8080 8080 "http" (3600 * GoTime.Second)
  = Go.Panic.
Proof.
  apply (nil_control_URL_panics samples.unreachable_world
           "http://192.168.1.1:5000/rootDesc.xml" upnp.TCP 8080 8080 "http"
           (3600 * GoTime.Second)).
  right. left. reflexivity.
Defined.

(** ** The controller *)
Section controller_facts.
Import GoTime Go portmap controller.

Lemma samples_start_reachable reg t0 :
  reachable [samples.gw1] (start samples.m1 t0 reg) [].
Proof. by apply (reach_start _ samples.cfg1). Qed.

(** C2, as stated, fails: [Delete] is called while the first call of
    [natpmp.Map] is under way; the aborted flag is set and ExternalAddr()
    is empty.  The call then succeeds, the controller records the port and
    a fresh expiry, and ExternalAddr() becomes "192.0.2.7:8080". *)
Lemma reactivated_after_Delete :
  exists s1 log1 s2 log2,
    run [samples.gw1] samples.delete_in_flight samples.s0 [] = Some (s1, log1)
    /\ aborted (st_m s1) = true
    /\ ExternalAddr (st_m s1) (now s1) = ""%string
    /\ run [samples.gw1] samples.granted s1 log1 = Some (s2, log2)
    /\ aborted (st_m s2) = true
    /\ ExternalAddr (st_m s2) (now s2) = "192.0.2.7:8080"%string.
Proof.
  eexists _, _, _, _.
  split; [vm_compute; reflexivity|].
  split; [reflexivity|]. split; [vm_compute; reflexivity|].
  split; [vm_compute; reflexivity|].
  split; [reflexivity|]. vm_compute; reflexivity.
Qed.

(** *** What the parts of the loop body leave unchanged *)

Lemma setInactive_frame m t :
  cfg (fst (setInactive m t)) = cfg m
  /\ expireTime (fst (setInactive m t)) = zero
  /\ aborted (fst (setInactive m t)) = aborted m
  /\ abortChan (fst (setInactive m t)) = abortChan m
  /\ externalAddr (fst (setInactive m t)) = externalAddr m.
Proof. unfold setInactive, notify. by destruct (String.eqb _ _). Qed.

Lemma services_with_ok b s : services (with_ok b s) = services s.
Proof. reflexivity. Qed.

#[local] Opaque services lIsActive ExternalAddr denet.NextDelay denet.Reset
  try_send.

(** Case analysis on a step of the controller. *)
Ltac step_cases :=
  unfold ctl_step, emit, try_nat, try_upnp, nat_done, upnp_done,
    after_attempt, setInactive, notify in *;
  repeat (simplify_eq; cbn [fst snd st_m aborting md ok d at_pc now byUSN
                            with_m with_aborting with_md with_ok with_d with_pc
                            with_now with_byUSN
                            cfg expireTime aborted abortChan notifyChan
                            externalAddr prevValue set_cfg set_expireTime
                            set_externalAddr] in *;
          try case_match).

Lemma ctl_step_inv gwa r s log s' evs :
  inv gwa s log ->
  ctl_step gwa r s = Some (s', evs) ->
  inv gwa s' (iteration_log (InCtl r) s log evs).
Proof.
  intros (Hac & Hab & Hpc) Hstep. unfold inv, pc_inv, iteration_log in *.
  step_cases.
  all: (split; [try done|split; [try (intros; auto; congruence)|]]).
  all: try done.
  all: try congruence.
  1-3: split; [done|]; exists []; done.
  - destruct Hpc as [-> _]. done.
  - destruct Hpc as (-> & tried & -> & ->). split; [done|].
    exists (tried ++ [gw]). rewrite <- app_assoc. split; [done|].
    unfold nat_fails. by rewrite fmap_app, app_nil_r, <- app_assoc.
  - destruct Hpc as (-> & tried & -> & ->). split; [done|].
    exists (tried ++ [gw]). rewrite <- app_assoc. split; [done|].
    unfold nat_fails. by rewrite fmap_app, app_nil_r, <- app_assoc.
  - destruct Hpc as (_ & tried & ->). split; [done|].
    exists (tried ++ [svc]). unfold unmap_fails.
    by rewrite fmap_app, app_nil_r, <- app_assoc.
Qed.

Lemma pc_inv_ext gwa s s' log :
  at_pc s' = at_pc s -> aborting s' = aborting s ->
  Lifetime (cfg (st_m s')) = Lifetime (cfg (st_m s)) ->
  pc_inv gwa s log -> pc_inv gwa s' log.
Proof. unfold pc_inv. by intros -> -> ->. Qed.

Lemma step_inv gwa i s log s' evs :
  inv gwa s log ->
  step gwa i s = Some (s', evs) ->
  inv gwa s' (iteration_log i s log evs).
Proof.
  destruct i as [dt| |ev| |r]; [..|apply ctl_step_inv];
    intros (Hac & Hab & Hpc); unfold inv; simpl.
  - destruct (0 <=? dt)%Z; [|done]. intros [= <- <-].
    rewrite app_nil_r. simpl. split; [done|]. split; [done|].
    by apply (pc_inv_ext gwa s).
  - unfold Delete, close. destruct (aborted (st_m s)) eqn:Ha; simpl.
    + intros [= <- <-]. rewrite app_nil_r. simpl.
      split; [congruence|]. split; [done|]. by apply (pc_inv_ext gwa s).
    + rewrite <- Hac. simpl. intros [= <- <-]. rewrite app_nil_r. simpl.
      split; [done|]. split; [done|]. by apply (pc_inv_ext gwa s).
  - intros [= <- <-]. rewrite app_nil_r. simpl. split; [done|]. split; [done|].
    by apply (pc_inv_ext gwa s).
  - destruct (pending (notifyChan (st_m s))); [done|]. intros [= <- <-].
    rewrite app_nil_r. simpl. split; [done|]. split; [done|].
    by apply (pc_inv_ext gwa s).
Qed.

Lemma reachable_inv gwa s log : reachable gwa s log -> inv gwa s log.
Proof.
  induction 1 as [c t0 reg m Hnew|s log i s' evs _ IH Hstep].
  - unfold New in Hnew. injection Hnew as <-. by repeat split.
  - by eapply step_inv.
Qed.

Lemma env_step_md gwa i s s' evs :
  (forall r, i <> InCtl r) -> step gwa i s = Some (s', evs) ->
  md s' = md s /\ at_pc s' = at_pc s /\ aborting s' = aborting s
  /\ (now s <= now s')%Z
  /\ expireTime (st_m s') = expireTime (st_m s)
  /\ cfg (st_m s') = cfg (st_m s).
Proof.
  intros Hi. destruct i as [dt| |ev| |r]; simpl; [..|by destruct (Hi r)].
  - destruct (Z.leb_spec 0 dt); [|done]. intros [= <- <-]. simpl.
    unfold Add. repeat split; lia.
  - unfold Delete, close. destruct (aborted (st_m s)); simpl.
    + by intros [= <- <-].
    + destruct (closed _); [done|]. by intros [= <- <-].
  - by intros [= <- <-].
  - destruct (pending _); [done|]. by intros [= <- <-].
Qed.

(** C3. Along every run of a controller started by New, a step that takes
    the mode from NATPMP to UPNP is a step of the controller itself that
    ends an iteration in which natpmp.Map failed at every gateway (the log
    of the iteration is the entry, the call of tryNATPMP, one failed Map
    for each gateway in order, and the switch), at a moment when the SSDP
    registry returns at least one WANIPConnection:1 service; it restarts
    the loop, leaves the mapping and its backoff clock untouched, and the
    iteration has not called NextDelay.  An iteration in mode UPNP that
    gets to ask the registry and finds no service sets the mode back to
    NATPMP and restarts the loop, and this is the only way back. *)
Theorem mode_switching (gwa : list IP) (s : state) (log : list event)
    (i : input) (s' : state) (evs : list event) :
  reachable gwa s log ->
  step gwa i s = Some (s', evs) ->
  (md s = modeNATPMP -> md s' = modeUPnP ->
     (exists r, i = InCtl r)
     /\ services s <> []
     /\ at_pc s' = PLoop
     /\ st_m s' = st_m s
     /\ (exists pl, iteration_log i s log evs
                    = [EvLoop; EvTry modeNATPMP (aborting s)]
                      ++ nat_fails pl gwa ++ [EvSwitch modeUPnP])%list
     /\ Forall (fun e => forall dl, e <> EvNextDelay dl)
               (iteration_log i s log evs))
  /\ (md s = modeUPnP -> at_pc s = PLoop -> i = InCtl RGo ->
      aborting s && negb (lIsActive s) = false ->
      services s = [] ->
      s' = with_pc PLoop (with_md modeNATPMP s)
      /\ evs = [EvLoop; EvSwitch modeNATPMP])
  /\ (md s = modeUPnP -> md s' = modeNATPMP ->
      i = InCtl RGo /\ at_pc s = PLoop /\ services s = []
      /\ at_pc s' = PLoop).
Proof.
  intros Hr Hstep. apply reachable_inv in Hr as (_ & _ & Hpc).
  assert (Hshape : forall pl, Forall (fun e => forall dl, e <> EvNextDelay dl)
            ([EvLoop; EvTry modeNATPMP (aborting s)]
               ++ nat_fails pl gwa ++ [EvSwitch modeUPnP])).
  { intros pl. repeat constructor; try done.
    apply Forall_app. split; [|by repeat constructor].
    unfold nat_fails. apply Forall_fmap, Forall_forall. by intros. }
  assert (Hi : (exists r, i = InCtl r) \/ (forall r, i <> InCtl r)).
  { destruct i; eauto. }
  destruct Hi as [[r ->]|Hne].
  2: { destruct (env_step_md gwa i s s' evs) as (Hmd & _); [done|done|].
       rewrite Hmd. split; [|split]; intros; congruence. }
  simpl in Hstep. unfold pc_inv, iteration_log in *.
  split; [|split].
  - intros Hm Hm'. step_cases; try congruence;
      rewrite ?services_with_ok in *;
      match goal with
      | H : bool_decide (services _ = []) = false |- _ =>
          apply bool_decide_eq_false in H
      end.
    + split_and!; [eauto|done|done|done|by exists 0%Z|apply (Hshape 0%Z)].
    + destruct Hpc as (-> & tried & -> & ->).
      assert (Hl : ([EvLoop; EvTry modeNATPMP true] ++ nat_fails 0 tried)
                     ++ [EvNatMap gw 0 None] ++ [EvSwitch modeUPnP]
                   = [EvLoop; EvTry modeNATPMP true]
                     ++ nat_fails 0 (tried ++ [gw]) ++ [EvSwitch modeUPnP]).
      { unfold nat_fails. rewrite fmap_app, <- !app_assoc. done. }
      rewrite Hl. split_and!; [eauto|done|done|done|eauto|apply Hshape].
    + destruct Hpc as (-> & tried & -> & ->).
      assert (Hl : ([EvLoop; EvTry modeNATPMP false]
                      ++ nat_fails (Lifetime (cfg (st_m s))) tried)
                     ++ [EvNatMap gw (Lifetime (cfg (st_m s))) None]
                     ++ [EvSwitch modeUPnP]
                   = [EvLoop; EvTry modeNATPMP false]
                     ++ nat_fails (Lifetime (cfg (st_m s))) (tried ++ [gw])
                     ++ [EvSwitch modeUPnP]).
      { unfold nat_fails. rewrite fmap_app, <- !app_assoc. done. }
      rewrite Hl. split_and!; [eauto|done|done|done|eauto|apply Hshape].
  - intros Hm Hp [= ->] Ha Hs. unfold ctl_step in Hstep.
    rewrite Hp, Ha, Hm in Hstep.
    rewrite bool_decide_eq_true_2 in Hstep by done. by injection Hstep as <- <-.
  - intros Hm Hm'. step_cases; try congruence.
    match goal with
    | H : bool_decide (services _ = []) = true |- _ =>
        apply bool_decide_eq_true in H
    end. done.
Qed.

(** Once the controller has seen the abort, a step keeps it so, does not
    turn the clock back, and leaves the expiry as it is or clears it. *)
Lemma abort_step gwa i s log s' evs :
  inv gwa s log -> aborting s = true ->
  step gwa i s = Some (s', evs) ->
  aborting s' = true /\ (now s <= now s')%Z
  /\ (expireTime (st_m s') = expireTime (st_m s)
      \/ expireTime (st_m s') = zero).
Proof.
  intros (_ & _ & Hpc) Ha Hstep.
  assert (Hi : (exists r, i = InCtl r) \/ (forall r, i <> InCtl r)).
  { destruct i; eauto. }
  destruct Hi as [[r ->]|Hne].
  2: { destruct (env_step_md gwa i s s' evs) as (_ & _ & Ha' & Hn & He & _);
         [done|done|]. rewrite Ha', He. auto. }
  simpl in Hstep. unfold pc_inv in Hpc.
  step_cases; try congruence;
    try (split; [done|split; [lia|by auto]]).
Qed.

Lemma run_inv gwa ins s log s' log' :
  inv gwa s log -> run gwa ins s log = Some (s', log') -> inv gwa s' log'.
Proof.
  revert s log. induction ins as [|i ins IH]; intros s log Hinv; simpl.
  - by intros [= <- <-].
  - destruct (step gwa i s) as [[s1 evs]|] eqn:Hs; [|done].
    apply IH. by eapply step_inv.
Qed.

Lemma run_reachable gwa ins s log s' log' :
  reachable gwa s log -> run gwa ins s log = Some (s', log') ->
  reachable gwa s' log'.
Proof.
  revert s log. induction ins as [|i ins IH]; intros s log Hr; simpl.
  - by intros [= <- <-].
  - destruct (step gwa i s) as [[s1 evs]|] eqn:Hs; [|done].
    apply IH. by eapply reach_step.
Qed.

Lemma abort_run gwa ins s log s' log' :
  inv gwa s log -> aborting s = true ->
  run gwa ins s log = Some (s', log') ->
  aborting s' = true /\ (now s <= now s')%Z
  /\ (expireTime (st_m s') = expireTime (st_m s)
      \/ expireTime (st_m s') = zero).
Proof.
  revert s log. induction ins as [|i ins IH]; intros s log Hinv Ha; simpl.
  - intros [= <- <-]. split; [done|]. split; [lia|by left].
  - destruct (step gwa i s) as [[s1 evs]|] eqn:Hs; [|done]. intros Hrun.
    destruct (abort_step _ _ _ _ _ _ Hinv Ha Hs) as (Ha1 & Hn1 & He1).
    destruct (IH _ _ (step_inv _ _ _ _ _ _ Hinv Hs) Ha1 Hrun)
      as (Ha' & Hn' & He').
    split; [done|]. split; [lia|].
    destruct He' as [->| ->]; auto.
Qed.

(** C2 (amended).  A call of Delete is seen by the controller at its next
    select: with the aborted flag set, the abort case of the select is
    ready and sets the local flag aborting.  From a state in which aborting
    is set, however the run goes on, aborting stays set, and the expiry is
    never written again except to be cleared; so a mapping that is inactive
    then (expiry unset or not in the future) stays inactive and
    ExternalAddr() stays empty.  Nothing is claimed for the steps between
    the call of Delete and that select: an attempt under way still records
    its result. *)
Theorem no_activation_once_abort_is_seen (gwa : list IP) (s : state)
    (log : list event) :
  reachable gwa s log ->
  (forall wake, aborted (st_m s) = true -> at_pc s = PSelect wake ->
     ctl_step gwa RAbort s = Some (with_pc PLoop (with_aborting true s), []))
  /\ (aborting s = true ->
      forall ins s' log', run gwa ins s log = Some (s', log') ->
        aborting s' = true
        /\ (now s <= now s')%Z
        /\ (expireTime (st_m s') = expireTime (st_m s)
            \/ expireTime (st_m s') = zero)
        /\ (isActive (st_m s) (now s) = false ->
            isActive (st_m s') (now s') = false
            /\ ExternalAddr (st_m s') (now s') = ""%string)).
Proof.
  intros Hr. pose proof (reachable_inv _ _ _ Hr) as Hinv. split.
  - intros wake Hab Hpc. destruct Hinv as (Hac & _).
    unfold ctl_step. rewrite Hpc, <- Hac, Hab. done.
  - intros Ha ins s' log' Hrun.
    destruct (abort_run _ _ _ _ _ _ Hinv Ha Hrun) as (Ha' & Hn & He).
    split; [done|]. split; [done|]. split; [done|].
    intros Hin. assert (Hin' : isActive (st_m s') (now s') = false).
    { apply isActive_false. apply isActive_false in Hin.
      unfold zero in *. destruct He as [->| ->]; lia. }
    split; [done|].
    by apply ExternalAddr_inactive.
Qed.

Lemma nat_fails_teardown tried : Forall teardown_call (nat_fails 0 tried).
Proof. unfold nat_fails. apply Forall_fmap, Forall_forall. by intros. Qed.

Lemma unmap_fails_teardown tried : Forall teardown_call (unmap_fails tried).
Proof. unfold unmap_fails. apply Forall_fmap, Forall_forall. by intros. Qed.

(** Case analysis on a step, with [setInactive] and [notify] kept folded. *)
Ltac step_cases_folded :=
  unfold ctl_step, emit, try_nat, try_upnp, nat_done, upnp_done,
    after_attempt in *;
  repeat (simplify_eq; cbn [fst snd st_m aborting md ok d at_pc now byUSN
                            with_m with_aborting with_md with_ok with_d with_pc
                            with_now with_byUSN] in *;
          try case_match).

(** Picks the case of [teardown_iteration] that holds, once the calls made
    so far in the iteration are given. *)
Ltac teardown_case mode calls :=
  right; exists mode, calls; split;
  [ rewrite ?Forall_app; repeat split;
    auto using nat_fails_teardown, unmap_fails_teardown;
    by repeat constructor
  | cbv zeta; rewrite <- ?app_assoc; simpl; rewrite ?app_nil_r;
    repeat match goal with
           | H : aborting _ = true |- _ => rewrite H
           end;
    first
      [ left; split_and!;
        [ reflexivity | by eauto
        | first [ by left | right; simpl; lia ] | reflexivity ]
      | right; left; split_and!; [ reflexivity | done | done | done ]
      | right; right; left; split_and!; [ reflexivity | done | done | done ]
      | right; right; right; split_and!;
        [ reflexivity | done | apply setInactive_frame ] ] ].

(** C4 (amended).  Once the controller has seen the abort, a step of it
    does one of five things.  At the top of the loop with the mapping
    already inactive it returns at once: no teardown attempt, the expiry is
    not cleared, notify is not called.  Otherwise the iteration under way
    consists of the entry, one call of tryNATPMP or tryUPnP with destroy
    set, and calls that are natpmp.Map with lifetime 0 or upnp.Unmap only,
    and the step either (a) goes on to the next gateway or service of that
    one attempt, with fewer left to try, or (b) ends the iteration by the
    switch to UPnP after NAT-PMP failed, or (c) by the switch back to
    NAT-PMP when no service is known, or (d) ends it, whether the attempt
    succeeded or failed, with setInactive (the expiry is cleared), one call
    of notify, and the return of the controller.  In no case is NextDelay
    called or the select entered. *)
Theorem teardown_iteration (gwa : list IP) (s : state) (log : list event)
    (r : reply) (s' : state) (evs : list event) :
  reachable gwa s log ->
  aborting s = true ->
  step gwa (InCtl r) s = Some (s', evs) ->
  (at_pc s = PLoop /\ isActive (st_m s) (now s) = false
   /\ s' = with_pc PDone s /\ evs = [EvReturn])
  \/ exists mode calls,
       Forall teardown_call calls
       /\ let L := iteration_log (InCtl r) s log evs in
          (L = [EvLoop; EvTry mode true] ++ calls
           /\ ((exists gw rest, at_pc s' = PNatMap gw rest 0)
               \/ (exists svc rest, at_pc s' = PUnmap svc rest))
           /\ (at_pc s = PLoop
               \/ (remaining (at_pc s') < remaining (at_pc s))%nat)
           /\ expireTime (st_m s') = expireTime (st_m s))
          \/ (L = [EvLoop; EvTry modeNATPMP true] ++ calls
                    ++ [EvSwitch modeUPnP]
              /\ at_pc s' = PLoop /\ md s' = modeUPnP
              /\ expireTime (st_m s') = expireTime (st_m s))
          \/ (L = [EvLoop; EvSwitch modeNATPMP]
              /\ at_pc s' = PLoop /\ md s' = modeNATPMP /\ st_m s' = st_m s)
          \/ (L = [EvLoop; EvTry mode true] ++ calls
                    ++ [EvSetInactive; EvNotify; EvReturn]
              /\ at_pc s' = PDone
              /\ expireTime (st_m s') = zero).
Proof.
  intros Hr Ha Hstep. apply reachable_inv in Hr as (_ & _ & Hpc).
  simpl in Hstep. unfold pc_inv, iteration_log in *.
  change (isActive (st_m s) (now s)) with (lIsActive s).
  destruct (at_pc s) as [|gw rest pl|gw expire|svc rest|svc rest|svc|wake|]
    eqn:Hat; try congruence.
  - (* at the top of the loop *)
    step_cases_folded; try congruence.
    + left. split_and!; try done.
      match goal with
      | H : _ && negb (lIsActive s) = true |- _ =>
          apply andb_true_iff in H as [_ H]; by apply negb_true_iff in H
      end.
    + teardown_case modeNATPMP (@nil event).
    + teardown_case modeNATPMP (@nil event).
    + teardown_case modeNATPMP (@nil event).
    + teardown_case modeNATPMP (@nil event).
    + teardown_case modeUPnP (@nil event).
  - (* natpmp.Map returns *)
    destruct Hpc as (-> & tried & -> & ->). rewrite Ha in *.
    unfold ctl_step in Hstep. rewrite Hat in Hstep.
    destruct r as [|res| | | | | |]; try discriminate.
    destruct res as [[port lifetime]|].
    + step_cases_folded; try congruence.
      all: teardown_case modeNATPMP
             (nat_fails 0 tried ++ [EvNatMap gw 0 (Some (port, lifetime))]).
    + step_cases_folded; try congruence.
      all: teardown_case modeNATPMP (nat_fails 0 tried ++ [EvNatMap gw 0 None]).
  - (* upnp.Unmap returns *)
    destruct Hpc as (_ & tried & ->).
    unfold ctl_step in Hstep. rewrite Hat in Hstep.
    destruct r as [| | |success| | | |]; try discriminate.
    destruct success.
    + step_cases_folded; try congruence.
      all: teardown_case modeUPnP (unmap_fails tried ++ [EvUnmap svc true]).
    + step_cases_folded; try congruence.
      all: teardown_case modeUPnP (unmap_fails tried ++ [EvUnmap svc false]).
  - (* after the return *)
    unfold ctl_step in Hstep. rewrite Hat in Hstep. by destruct r.
Qed.

End controller_facts.

(** The statement at the step in which the only gateway fails while a
    WANIPConnection:1 service is known. *)
Lemma mode_switching_witness :
  controller.reachable [samples.gw1] samples.s_nat_wait
    [controller.EvLoop; controller.EvTry controller.modeNATPMP false]
  /\ controller.step [samples.gw1] (controller.InCtl (controller.RNatMap None))
       samples.s_nat_wait
     = Some (samples.s_switched,
             [controller.EvNatMap samples.gw1 (2 * GoTime.Hour) None;
              controller.EvSwitch controller.modeUPnP])
  /\ controller.services samples.s_nat_wait <> []
  /\ controller.at_pc samples.s_switched = controller.PLoop.
Proof.
  assert (Hr : controller.reachable [samples.gw1] samples.s_nat_wait
                 [controller.EvLoop;
                  controller.EvTry controller.modeNATPMP false]).
  { apply (controller.reach_step [samples.gw1]
             (controller.start samples.m1 (1100 * GoTime.Second) samples.reg1)
             [] (controller.InCtl controller.RGo)).
    - by apply (controller.reach_start _ samples.cfg1).
    - reflexivity. }
  assert (Hs : controller.step [samples.gw1]
                 (controller.InCtl (controller.RNatMap None)) samples.s_nat_wait
               = Some (samples.s_switched,
                       [controller.EvNatMap samples.gw1 (2 * GoTime.Hour) None;
                        controller.EvSwitch controller.modeUPnP])).
  { vm_compute. reflexivity. }
  split; [exact Hr|]. split; [exact Hs|].
  destruct (proj1 (mode_switching _ _ _ _ _ _ Hr Hs) eq_refl eq_refl)
    as (_ & Hsvc & Hpc & _).
  split; [exact Hsvc|exact Hpc].
Defined.

(** C4, as stated, fails: the mapping has expired during a backoff sleep
    when the abort is seen; the controller returns at once, the expiry
    (4600 s) is not cleared and notify is not called, although
    ExternalAddr() has changed from "192.0.2.7:8080" to the empty string
    since the last notification. *)
Lemma return_without_teardown :
  exists s log,
    controller.run [samples.gw1] samples.expired_then_deleted samples.s0 []
      = Some (s, log)
    /\ controller.aborting s = true
    /\ controller.at_pc s = controller.PDone
    /\ log = [controller.EvReturn]
    /\ portmap.expireTime (controller.st_m s) = 4600 * GoTime.Second
    /\ portmap.expireTime (controller.st_m s) <> GoTime.zero
    /\ portmap.prevValue (controller.st_m s) = "192.0.2.7:8080"%string
    /\ portmap.ExternalAddr (controller.st_m s) (controller.now s) = ""%string
    /\ portmap.pending (portmap.notifyChan (controller.st_m s)) = 0%nat.
Proof.
  eexists _, _. split; [vm_compute; reflexivity|].
  repeat split; try (vm_compute; reflexivity). vm_compute. discriminate.
Qed.

(** The teardown theorem at the step in which the gateway answers the
    NAT-PMP request that deletes the mapping. *)
Lemma teardown_iteration_witness :
  exists s log s' evs,
    controller.run [samples.gw1] samples.teardown_inputs samples.s0 []
      = Some (s, log)
    /\ controller.aborting s = true
    /\ controller.step [samples.gw1]
         (controller.InCtl (controller.RNatMap (Some (0, 0)))) s
       = Some (s', evs)
    /\ controller.at_pc s' = controller.PDone
    /\ portmap.expireTime (controller.st_m s') = GoTime.zero.
Proof.
  eexists _, _, _, _.
  match goal with
  | |- ?A /\ ?B /\ ?C /\ _ =>
      assert (Hrun : A) by (vm_compute; reflexivity);
      assert (Ha : B) by (vm_compute; reflexivity);
      assert (Hstep : C) by (vm_compute; reflexivity)
  end.
  split; [exact Hrun|]. split; [exact Ha|]. split; [exact Hstep|].
  destruct (teardown_iteration [samples.gw1] _ _ _ _ _
              (run_reachable [samples.gw1] samples.teardown_inputs
                 samples.s0 [] _ _ (samples_start_reachable _ _) Hrun)
              Ha Hstep)
    as [(Hpc & _)|(mode & calls & _ & [(_ & Hpc & _)|[(_ & Hpc & _)
                                      |[(_ & Hpc & _)|(_ & Hpc & He)]]])].
  - discriminate Hpc.
  - destruct Hpc as [(? & ? & Hpc)|(? & ? & Hpc)]; discriminate Hpc.
  - discriminate Hpc.
  - discriminate Hpc.
  - split; [exact Hpc|exact He].
Defined.

(** The theorem on runs after the abort, at the controller that has seen
    the abort, followed through the answer of the gateway. *)
Lemma no_activation_once_abort_is_seen_witness :
  exists s log s' log',
    controller.run [samples.gw1] samples.teardown_inputs samples.s0 []
      = Some (s, log)
    /\ controller.aborting s = true
    /\ controller.run [samples.gw1]
         [controller.InCtl (controller.RNatMap (Some (0, 0)))] s log
       = Some (s', log')
    /\ controller.aborting s' = true
    /\ (controller.now s <= controller.now s')%Z
    /\ (portmap.expireTime (controller.st_m s')
        = portmap.expireTime (controller.st_m s)
        \/ portmap.expireTime (controller.st_m s') = GoTime.zero).
Proof.
  eexists _, _, _, _.
  match goal with
  | |- ?A /\ ?B /\ ?C /\ _ =>
      assert (Hrun : A) by (vm_compute; reflexivity);
      assert (Ha : B) by (vm_compute; reflexivity);
      assert (Hrun' : C) by (vm_compute; reflexivity)
  end.
  split; [exact Hrun|]. split; [exact Ha|]. split; [exact Hrun'|].
  destruct (proj2 (no_activation_once_abort_is_seen [samples.gw1] _ _
                     (run_reachable [samples.gw1] samples.teardown_inputs
                        samples.s0 [] _ _ (samples_start_reachable _ _) Hrun))
              Ha _ _ _ Hrun')
    as (Ha' & Hn & He & _).
  split; [exact Ha'|]. split; [exact Hn|exact He].
Defined.

(** * Further properties *)

(** ** NAT-PMP: the transaction *)
Section natpmp_more.
Import GoTime Go natpmp.

(** Case analysis on one turn of the loop of [makeRequest]: [Hagain] is
    the statement for the turns that follow. *)
Ltac loop_turn Hagain :=
  match goal with
  | |- context [head ?net] =>
      destruct (head net) as [[e|e| |e|res ip port]|] eqn:Hhead;
      try exact Hagain
  end.

Lemma request_loop_no_panic fuel dst opc msg rconf net r tr :
  request_loop fuel dst opc msg rconf net = Some (r, tr) -> r <> Panic.
Proof.
  revert rconf net r tr. induction fuel as [|fuel IH]; intros rconf net r tr; [done|].
  simpl. destruct (denet.NextDelay rconf) as [maxtime rconf'].
  destruct (maxtime =? 0); [by intros [= <- <-]|].
  assert (Hagain :
    match request_loop fuel dst opc msg rconf' (tail net) with
    | Some (r0, tr0) => Some (r0, ASetDeadline maxtime :: AWrite msg :: ARead :: tr0)
    | None => None
    end = Some (r, tr) -> r <> Panic).
  { destruct (request_loop fuel dst opc msg rconf' (tail net)) as [[r0 tr0]|] eqn:E;
      [|done].
    intros [= <- <-]. by eapply IH. }
  loop_turn Hagain; try by intros [= <- <-].
  destruct (wrong_source dst ip port); [exact Hagain|].
  destruct (too_short res) eqn:Hshort; [exact Hagain|].
  destruct (wrong_header opc res); [exact Hagain|].
  destruct (negb _); [by intros [= <- <-]|].
  unfold slice_from. unfold too_short in Hshort.
  apply Nat.ltb_ge in Hshort. apply Nat.leb_le in Hshort. rewrite Hshort.
  by intros [= <- <-].
Qed.

Lemma makeRequest_some dial net dst opc data :
  exists r tr, makeRequest dial net dst opc data = Some (r, tr)
               /\ r <> Panic.
Proof.
  unfold makeRequest. destruct dial as [e|]; [by eexists _, _|].
  destruct (request_loop_total (max_turns backoff) dst opc
              ([version0; opc] ++ data) (denet.Reset backoff) net)
    as [[r tr] Hr]; [done|done|done|].
  exists r, tr. split; [done|]. by eapply request_loop_no_panic.
Qed.

(** X1. [makeRequest] always returns, and it never panics: the slice
    res[4:] is taken only of a datagram of 4 bytes or more. *)
Theorem makeRequest_returns (dial : option string) (net : list attempt)
    (dst : IP) (opc : Z) (data : list Z) :
  exists r tr, makeRequest dial net dst opc data = Some (r, tr)
               /\ r <> Panic.
Proof.
  unfold makeRequest. destruct dial as [e|]; [by eexists _, _|].
  destruct (request_loop_total (max_turns backoff) dst opc
              ([version0; opc] ++ data) (denet.Reset backoff) net)
    as [[r tr] Hr]; [done|done|done|].
  exists r, tr. split; [exact Hr|]. by eapply request_loop_no_panic.
Qed.

Lemma request_loop_origin fuel dst opc msg rconf net r tr :
  request_loop fuel dst opc msg rconf net = Some (Ret r, tr) ->
  exists res ip port,
    Received res ip port ∈ net
    /\ discarded dst opc res ip port = false
    /\ be16 (nth 2 (elems res) 0) (nth 3 (elems res) 0) = 0
    /\ r = mkSlice (drop 4 (elems res)) (spare res).
Proof.
  revert rconf net tr. induction fuel as [|fuel IH]; intros rconf net tr; [done|].
  simpl. destruct (denet.NextDelay rconf) as [maxtime rconf'].
  destruct (maxtime =? 0); [done|].
  assert (Hagain :
    match request_loop fuel dst opc msg rconf' (tail net) with
    | Some (r0, tr0) => Some (r0, ASetDeadline maxtime :: AWrite msg :: ARead :: tr0)
    | None => None
    end = Some (Ret r, tr) ->
    exists res ip port,
      Received res ip port ∈ net
      /\ discarded dst opc res ip port = false
      /\ be16 (nth 2 (elems res) 0) (nth 3 (elems res) 0) = 0
      /\ r = mkSlice (drop 4 (elems res)) (spare res)).
  { destruct (request_loop fuel dst opc msg rconf' (tail net)) as [[r0 tr0]|] eqn:E;
      [|done].
    intros [= -> <-]. destruct (IH _ _ _ E) as (res & ip & port & Hin & H).
    exists res, ip, port. split; [|done].
    destruct net; [by apply elem_of_nil in Hin|]. by right. }
  loop_turn Hagain; try done.
  unfold discarded.
  destruct (wrong_source dst ip port) eqn:Hs; [exact Hagain|].
  destruct (too_short res) eqn:Hshort; [exact Hagain|].
  destruct (wrong_header opc res) eqn:Hh; [exact Hagain|].
  destruct (Z.eqb_spec (be16 (nth 2 (elems res) 0) (nth 3 (elems res) 0)) 0)
    as [Hrc|]; [|done]. simpl.
  destruct (slice_from res 4) as [r0|] eqn:Hr0; [|done].
  intros [= <- <-]. exists res, ip, port.
  split. { destruct net as [|a net]; [done|]. simpl in Hhead. injection Hhead as ->. by left. }
  split; [by rewrite Hs, Hshort, Hh|]. split; [done|].
  unfold slice_from in Hr0. destruct (4 <=? len res)%nat; [|done].
  by injection Hr0 as <-.
Qed.

(** X2. A payload returned by [makeRequest] is that of a datagram the
    network delivered: one that came from (gateway, 5351), has 4 bytes or
    more, version 0, the opcode of the request with bit 0x80 and result
    code 0; the payload is the datagram without its first 4 bytes. *)
Theorem makeRequest_payload_origin (dial : option string)
    (net : list attempt) (dst : IP) (opc : Z) (data : list Z) (r : slice)
    (tr : list action) :
  makeRequest dial net dst opc data = Some (Ret r, tr) ->
  exists res ip port,
    Received res ip port ∈ net
    /\ IP_Equal ip dst = true /\ port = hostToGatewayPort
    /\ (4 <= len res)%nat
    /\ nth 0 (elems res) 0 = 0
    /\ nth 1 (elems res) 0 = Z.lor 128 opc
    /\ be16 (nth 2 (elems res) 0) (nth 3 (elems res) 0) = 0
    /\ elems r = drop 4 (elems res).
Proof.
  unfold makeRequest. destruct dial; [done|]. intros H.
  apply request_loop_origin in H as (res & ip & port & Hin & Hd & Hrc & ->).
  exists res, ip, port. split; [done|].
  unfold discarded, wrong_source, too_short, wrong_header in Hd.
  apply orb_false_iff in Hd as [Hd Hh]. apply orb_false_iff in Hd as [Hs Hl].
  apply orb_false_iff in Hs as [Hip Hport]. apply orb_false_iff in Hh as [H0 H1].
  apply negb_false_iff in Hip, Hport, H0, H1.
  apply Z.eqb_eq in Hport, H0, H1. apply Nat.ltb_ge in Hl.
  by repeat split.
Qed.

(** The statement at the reply of [samples.reply_ok]. *)
Lemma makeRequest_payload_origin_witness :
  makeRequest None [Received samples.reply_ok samples.gw1 5351] samples.gw1
              opcGetExternalAddr []
  = Some (Ret (of_bytes [0; 0; 0; 1; 192; 0; 2; 7]),
          turn [0; 0] (250 * Millisecond))
  /\ exists res ip port,
       Received res ip port ∈ [Received samples.reply_ok samples.gw1 5351]
       /\ IP_Equal ip samples.gw1 = true /\ port = hostToGatewayPort
       /\ (4 <= len res)%nat
       /\ nth 0 (elems res) 0 = 0
       /\ nth 1 (elems res) 0 = Z.lor 128 opcGetExternalAddr
       /\ be16 (nth 2 (elems res) 0) (nth 3 (elems res) 0) = 0
       /\ elems (of_bytes [0; 0; 0; 1; 192; 0; 2; 7]) = drop 4 (elems res).
Proof.
  assert (H : makeRequest None [Received samples.reply_ok samples.gw1 5351]
                samples.gw1 opcGetExternalAddr []
              = Some (Ret (of_bytes [0; 0; 0; 1; 192; 0; 2; 7]),
                      turn [0; 0] (250 * Millisecond)))
    by (vm_compute; reflexivity).
  split; [exact H|].
  exact (makeRequest_payload_origin _ _ _ _ _ _ _ H).
Defined.

Lemma request_loop_writes fuel dst opc msg rconf net r tr :
  request_loop fuel dst opc msg rconf net = Some (r, tr) ->
  Forall (eq msg) (writes tr)
  /\ (length (writes tr) <= length (deadlines tr))%nat.
Proof.
  revert rconf net r tr. induction fuel as [|fuel IH]; intros rconf net r tr; [done|].
  simpl. destruct (denet.NextDelay rconf) as [maxtime rconf'].
  destruct (maxtime =? 0).
  { intros [= <- <-]. split; [constructor|done]. }
  assert (Hagain :
    match request_loop fuel dst opc msg rconf' (tail net) with
    | Some (r0, tr0) => Some (r0, ASetDeadline maxtime :: AWrite msg :: ARead :: tr0)
    | None => None
    end = Some (r, tr) ->
    Forall (eq msg) (writes tr)
    /\ (length (writes tr) <= length (deadlines tr))%nat).
  { destruct (request_loop fuel dst opc msg rconf' (tail net)) as [[r0 tr0]|] eqn:E;
      [|done].
    intros [= <- <-]. destruct (IH _ _ _ _ E) as [Hw Hl].
    split; [by constructor|]. simpl. lia. }
  assert (Hone : forall acts : list action,
    writes acts = [] \/ writes acts = [msg] ->
    deadlines acts = [] ->
    Forall (eq msg) (writes (ASetDeadline maxtime :: acts))
    /\ (length (writes (ASetDeadline maxtime :: acts))
        <= length (deadlines (ASetDeadline maxtime :: acts)))%nat).
  { intros acts Hw Hd.
    change (writes (ASetDeadline maxtime :: acts)) with (writes acts).
    change (deadlines (ASetDeadline maxtime :: acts))
      with (maxtime :: deadlines acts).
    destruct Hw as [-> | ->]; split; simpl; try lia; by repeat constructor. }
  loop_turn Hagain;
    try (intros [= <- <-]; apply Hone; [by auto|done]).
  destruct (wrong_source dst ip port); [exact Hagain|].
  destruct (too_short res); [exact Hagain|].
  destruct (wrong_header opc res); [exact Hagain|].
  destruct (negb _); [intros [= <- <-]; apply Hone; [by auto|done]|].
  destruct (slice_from res 4); intros [= <- <-]; apply Hone; by auto.
Qed.

(** X3. Whatever the network does, a transaction sends the request at
    most 9 times, and every datagram it sends is the same request: version
    0, the opcode, the data. *)
Theorem makeRequest_sends (dial : option string) (net : list attempt)
    (dst : IP) (opc : Z) (data : list Z) (r : result slice)
    (tr : list action) :
  makeRequest dial net dst opc data = Some (r, tr) ->
  (length (writes tr) <= 9)%nat
  /\ Forall (eq ([version0; opc] ++ data)) (writes tr).
Proof.
  unfold makeRequest. destruct dial.
  { intros [= <- <-]. split; [simpl; lia|constructor]. }
  intros H. destruct (request_loop_writes _ _ _ _ _ _ _ _ H) as [Hw Hl].
  split; [|done].
  apply request_loop_deadlines in H as [Hp Hf].
  apply prefix_of_schedule in Hp; [|done].
  apply prefix_length in Hp. simpl in Hp. lia.
Qed.

(** The statement at a network from which nothing arrives. *)
Lemma makeRequest_sends_witness :
  (length (writes (concat (turn [0%Z; 0%Z] <$> schedule))) <= 9)%nat
  /\ Forall (eq ([version0; 0] ++ [])) (writes (concat (turn [0; 0] <$> schedule))).
Proof.
  exact (makeRequest_sends None [] samples.gw1 0 [] (Fail ErrTimeout)
           (concat (turn [0; 0] <$> schedule)) eq_refl).
Defined.

(** *** The big-endian codec *)

Lemma lor_mul_pow2 a b k :
  0 <= k -> 0 <= b < 2 ^ k -> Z.lor (a * 2 ^ k) b = a * 2 ^ k + b.
Proof.
  intros Hk Hb.
  assert (Hland : Z.land (a * 2 ^ k) b = 0).
  { apply Z.bits_inj'. intros n Hn. rewrite Z.land_spec, Z.bits_0.
    destruct (Z.lt_ge_cases n k).
    - rewrite Z.mul_pow2_bits_low by lia. done.
    - rewrite <- (Z.mod_small b (2 ^ k)) by lia.
      rewrite Z.mod_pow2_bits_high by lia. apply andb_false_r. }
  rewrite <- Z.lxor_lor by done. symmetry. by apply Z.add_nocarry_lxor.
Qed.

Lemma be16_value b0 b1 : 0 <= b1 < 256 -> be16 b0 b1 = b0 * 256 + b1.
Proof.
  intros H. unfold be16. rewrite Z.shiftl_mul_pow2 by lia.
  by apply (lor_mul_pow2 b0 b1 8).
Qed.

Lemma be32_value b0 b1 b2 b3 :
  0 <= b1 < 256 -> 0 <= b2 < 256 -> 0 <= b3 < 256 ->
  be32 b0 b1 b2 b3 = ((b0 * 256 + b1) * 256 + b2) * 256 + b3.
Proof.
  intros H1 H2 H3. unfold be32. rewrite !Z.shiftl_mul_pow2 by lia.
  rewrite (lor_mul_pow2 b0 (b1 * 2 ^ 16) 24)
    by (change (2 ^ 16) with 65536; change (2 ^ 24) with 16777216; lia).
  assert (E2 : b0 * 2 ^ 24 + b1 * 2 ^ 16 = (b0 * 256 + b1) * 2 ^ 16)
    by (change (2 ^ 16) with 65536; change (2 ^ 24) with 16777216; lia).
  rewrite E2, (lor_mul_pow2 (b0 * 256 + b1) (b2 * 2 ^ 8) 16)
    by (change (2 ^ 8) with 256; change (2 ^ 16) with 65536; lia).
  assert (E3 : (b0 * 256 + b1) * 2 ^ 16 + b2 * 2 ^ 8
               = ((b0 * 256 + b1) * 256 + b2) * 2 ^ 8)
    by (change (2 ^ 16) with 65536; change (2 ^ 8) with 256; lia).
  rewrite E3, (lor_mul_pow2 _ b3 8) by (change (2 ^ 8) with 256; lia).
  change (2 ^ 8) with 256. lia.
Qed.

Lemma byte_at v k :
  0 <= k -> 0 <= Z.land (Z.shiftr v k) 255 < 256
  /\ Z.land (Z.shiftr v k) 255 = (v / 2 ^ k) mod 256.
Proof.
  intros Hk. change 255 with (Z.ones 8).
  rewrite Z.land_ones, Z.shiftr_div_pow2 by lia.
  split; [|done]. apply Z.mod_pos_bound. lia.
Qed.

Lemma be16_put16 v :
  0 <= v < 65536 ->
  be16 (Z.land (Z.shiftr v 8) 255) (Z.land v 255) = v.
Proof.
  intros Hv. destruct (byte_at v 8) as [_ H1]; [lia|].
  destruct (byte_at v 0) as [Hb0 H0]; [lia|].
  rewrite Z.shiftr_0_r in Hb0, H0.
  rewrite be16_value by done. rewrite H1, H0.
  change (2 ^ 8) with 256. change (2 ^ 0) with 1. rewrite Z.div_1_r.
  rewrite (Z.mod_small (v / 256)) by (split; [apply Z.div_pos|apply Z.div_lt_upper_bound]; lia).
  pose proof (Z.div_mod v 256). lia.
Qed.

Lemma be32_put32 v :
  0 <= v < 2 ^ 32 ->
  be32 (Z.land (Z.shiftr v 24) 255) (Z.land (Z.shiftr v 16) 255)
       (Z.land (Z.shiftr v 8) 255) (Z.land v 255) = v.
Proof.
  intros Hv.
  destruct (byte_at v 24) as [_ H3]; [lia|].
  destruct (byte_at v 16) as [Hb2 H2]; [lia|].
  destruct (byte_at v 8) as [Hb1 H1]; [lia|].
  destruct (byte_at v 0) as [Hb0 H0]; [lia|].
  rewrite Z.shiftr_0_r in Hb0, H0.
  rewrite be32_value by done. rewrite H3, H2, H1, H0.
  change (2 ^ 24) with 16777216. change (2 ^ 16) with 65536.
  change (2 ^ 8) with 256. change (2 ^ 0) with 1.
  change (2 ^ 32) with 4294967296 in Hv.
  rewrite Z.div_1_r. clear -Hv.
  assert (E3 : v / 16777216 = v / 256 / 256 / 256)
    by (rewrite !Z.div_div by lia; reflexivity).
  assert (E2 : v / 65536 = v / 256 / 256)
    by (rewrite !Z.div_div by lia; reflexivity).
  rewrite E3, E2.
  pose proof (Z.div_mod v 256 ltac:(lia)) as D0.
  pose proof (Z.div_mod (v / 256) 256 ltac:(lia)) as D1.
  pose proof (Z.div_mod (v / 256 / 256) 256 ltac:(lia)) as D2.
  pose proof (Z.div_mod (v / 256 / 256 / 256) 256 ltac:(lia)) as D3.
  pose proof (Z.mod_pos_bound v 256 ltac:(lia)).
  pose proof (Z.mod_pos_bound (v / 256) 256 ltac:(lia)).
  pose proof (Z.mod_pos_bound (v / 256 / 256) 256 ltac:(lia)).
  pose proof (Z.mod_pos_bound (v / 256 / 256 / 256) 256 ltac:(lia)).
  generalize dependent (v mod 256). generalize dependent ((v / 256) mod 256).
  generalize dependent ((v / 256 / 256) mod 256).
  generalize dependent ((v / 256 / 256 / 256) mod 256).
  generalize dependent (v / 256 / 256 / 256 / 256).
  generalize dependent (v / 256 / 256 / 256).
  generalize dependent (v / 256 / 256). generalize dependent (v / 256).
  intros. lia.
Qed.




Lemma IP_Equal_refl ip : IP_Equal ip ip = true.
Proof.
  unfold IP_Equal. rewrite Nat.eqb_refl. unfold bytes_eqb.
  by apply bool_decide_eq_true.
Qed.

(** X5. When the first datagram that arrives is a well-formed reply of
    the gateway to the mapping request, carrying an external port and a
    lifetime in seconds, [Map] returns that port and that lifetime (as a
    duration) after a single send. *)
Theorem Map_reply_roundtrip (gw : IP) (proto opc : Z)
    (internalPort suggestedExternalPort : Z) (lifetime : Duration)
    (epoch replyInternalPort externalPort secs : Z) (room : list Z)
    (rest : list attempt) :
  opcode proto = (opc, true) ->
  0 <= externalPort < 65536 ->
  0 <= secs < 2 ^ 32 ->
  Map None
      (Received (mkSlice (wire.map_reply opc epoch replyInternalPort
                            externalPort secs) room) gw 5351 :: rest)
      gw proto internalPort suggestedExternalPort lifetime
  = Some (Ret (externalPort, secs * Second),
          turn (wire.map_request opc internalPort suggestedExternalPort
                  (lifetime_seconds lifetime))
               (250 * Millisecond)).
Proof.
  intros Hopc Hp Hs. unfold Map. rewrite Hopc. simpl negb. cbv iota.
  unfold makeRequest, max_turns. simpl Z.to_nat.
  change (denet.MaxTries backoff) with 9. simpl Z.to_nat.
  cbn [request_loop].
  change (denet.NextDelay (denet.Reset backoff))
    with (250 * Millisecond, denet.set_CurrentTry 1 backoff).
  cbv iota beta. change (250 * Millisecond =? 0) with false. cbv iota.
  cbn [head]. unfold wrong_source. rewrite IP_Equal_refl.
  change (5351 =? hostToGatewayPort) with true. cbn [negb orb].
  unfold too_short, wrong_header, wire.map_reply, len, put16, put32.
  cbn [elems length app nth Nat.ltb Nat.leb].
  rewrite !Z.eqb_refl. cbn [negb orb].
  change (be16 0 0) with 0. change (0 =? 0) with true. cbn [negb].
  unfold slice_from, len. cbn [elems length app Nat.leb drop].
  cbn [Nat.ltb Nat.leb length nth elems].
  rewrite be16_put16 by done. rewrite be32_put32 by done.
  reflexivity.
Qed.

(** The statement at a reply that grants port 40001 for one hour. *)
Lemma Map_reply_roundtrip_witness :
  Map None
      (Received (mkSlice (wire.map_reply 2 1 8080 40001 3600) [])
                samples.gw1 5351 :: [])
      samples.gw1 TCP 8080 8080 (2 * Hour)
  = Some (Ret (40001, 3600 * Second),
          turn (wire.map_request 2 8080 8080 (lifetime_seconds (2 * Hour)))
               (250 * Millisecond)).
Proof.
  exact (Map_reply_roundtrip samples.gw1 TCP 2 8080 8080 (2 * Hour)
           1 8080 40001 3600 [] [] eq_refl ltac:(lia)
           ltac:(vm_compute; split; [discriminate|reflexivity])).
Defined.

(** X6. [Map] always returns and never panics (it checks the length of
    the payload before it reads the fields), and a protocol other than TCP
    and UDP is refused before anything is sent. *)
Theorem Map_outcomes (dial : option string) (net : list attempt) (gw : IP)
    (proto internalPort suggestedExternalPort : Z) (lifetime : Duration) :
  exists r tr,
    Map dial net gw proto internalPort suggestedExternalPort lifetime
      = Some (r, tr)
    /\ r <> Panic
    /\ (proto <> TCP -> proto <> UDP ->
        r = Fail ErrUnsupportedProtocol /\ tr = []).
Proof.
  unfold Map.
  destruct (opcode proto) as [opc okp] eqn:Hopc.
  destruct okp; simpl negb; cbv iota.
  - destruct (makeRequest_some dial net gw opc
                (put16 0 ++ put16 internalPort ++ put16 suggestedExternalPort
                 ++ put32 (lifetime_seconds lifetime)))
      as (q & tr0 & Hm & Hnp).
    rewrite Hm.
    assert (Hsup : proto <> TCP -> proto <> UDP -> False).
    { intros Ht Hu. unfold opcode in Hopc.
      destruct (Z.eqb_spec proto TCP); [done|].
      destruct (Z.eqb_spec proto UDP); [done|]. discriminate. }
    destruct q as [p|e|]; [| |done].
    + destruct (len p <? 12)%nat; eexists _, _;
        (split; [reflexivity|]); (split; [discriminate|]);
        intros Ht Hu; destruct (Hsup Ht Hu).
    + eexists _, _. split; [reflexivity|]. split; [discriminate|].
      intros Ht Hu. destruct (Hsup Ht Hu).
  - eexists _, _. split; [reflexivity|]. split; [discriminate|]. done.
Qed.

(** X7. An address returned by [GetExternalAddr] has exactly 4 bytes:
    bytes 4 to 8 of the buffer that holds the payload. *)
Theorem GetExternalAddr_four_bytes (dial : option string)
    (net : list attempt) (gw ip : IP) (tr : list action) :
  GetExternalAddr dial net gw = Some (Ret ip, tr) ->
  length ip = 4%nat
  /\ exists r, makeRequest dial net gw opcGetExternalAddr [] = Some (Ret r, tr)
               /\ ip = take 4 (drop 4 (elems r ++ spare r)).
Proof.
  unfold GetExternalAddr.
  destruct (makeRequest dial net gw opcGetExternalAddr []) as [[r tr0]|]; [|done].
  destruct r as [r|e|]; [|done..].
  unfold slice_range. destruct (8 <=? cap r)%nat eqn:Hc; simpl; [|done].
  intros [= <- <-]. apply Nat.leb_le in Hc. unfold cap in Hc.
  split; [|by exists r].
  rewrite length_take, length_drop, length_app. lia.
Qed.

(** The statement at the reply 192.0.2.7. *)
Lemma GetExternalAddr_four_bytes_witness :
  GetExternalAddr None [Received samples.reply_ok samples.gw1 5351] samples.gw1
  = Some (Ret [192; 0; 2; 7], turn [0; 0] (250 * Millisecond))
  /\ length [192; 0; 2; 7] = 4%nat.
Proof.
  assert (H : GetExternalAddr None [Received samples.reply_ok samples.gw1 5351]
                samples.gw1
              = Some (Ret [192; 0; 2; 7], turn [0; 0] (250 * Millisecond)))
    by (vm_compute; reflexivity).
  split; [exact H|].
  exact (proj1 (GetExternalAddr_four_bytes _ _ _ _ _ H)).
Defined.

End natpmp_more.

(** ** The package function [ExternalAddr] *)
Section extaddr_facts.
Import GoTime Go extaddr.

Lemma ask_gateways_err nets gwa e :
  ask_gateways nets gwa (Some e) <> Some (Ret None).
Proof.
  revert e. induction gwa as [|gw rest IH]; intros e; simpl; [done|].
  destruct (natpmp.GetExternalAddr _ _ _) as [[[a|e'|] tr]|]; done.
Qed.

Lemma ask_gateways_answer nets pre gw post err a tr :
  Forall (refuses nets) pre ->
  natpmp.GetExternalAddr (fst (nets gw)) (snd (nets gw)) gw
    = Some (Ret a, tr) ->
  ask_gateways nets (pre ++ gw :: post) err = Some (Ret (Some a)).
Proof.
  intros Hpre Hgw. revert err.
  induction Hpre as [|g pre (e & tr' & Hg) Hpre IH]; intros err; simpl.
  - by rewrite Hgw.
  - rewrite Hg. apply IH.
Qed.

Lemma ask_gateways_refused nets pre gw err e tr :
  Forall (refuses nets) pre ->
  natpmp.GetExternalAddr (fst (nets gw)) (snd (nets gw)) gw
    = Some (Fail e, tr) ->
  ask_gateways nets (pre ++ [gw]) err = Some (Fail (ErrNatpmp e)).
Proof.
  intros Hpre Hgw. revert err.
  induction Hpre as [|g pre (e' & tr' & Hg) Hpre IH]; intros err; simpl.
  - by rewrite Hgw.
  - rewrite Hg. apply IH.
Qed.

(** X8. [ExternalAddr] returns neither an address nor an error exactly
    when the host is not globally routable and the list of gateways is
    empty. *)
Theorem ExternalAddr_nil_nil (routable : bool * IP)
    (gateways : option (list IP))
    (nets : IP -> option string * list natpmp.attempt) :
  ExternalAddr routable gateways nets = Some (Ret None)
  <-> fst routable = false /\ gateways = Some [].
Proof.
  unfold ExternalAddr. destruct routable as [[] ip]; simpl.
  { split; [done|]. by intros [? _]. }
  destruct gateways as [[|gw rest]|]; simpl.
  - done.
  - split; [|by intros [_ ?]].
    destruct (natpmp.GetExternalAddr _ _ _) as [[[a|e'|] tr]|]; try done.
    intros H. by apply ask_gateways_err in H.
  - split; [done|]. by intros [_ ?].
Qed.

(** X9. The address of the first gateway that answers without an error
    is returned: the gateways before it that refuse are passed over, and
    those after it play no part. *)
Theorem ExternalAddr_first_answer (ip : IP) (pre : list IP) (gw : IP)
    (post : list IP) (nets : IP -> option string * list natpmp.attempt)
    (a : IP) (tr : list natpmp.action) :
  Forall (refuses nets) pre ->
  natpmp.GetExternalAddr (fst (nets gw)) (snd (nets gw)) gw
    = Some (Ret a, tr) ->
  ExternalAddr (false, ip) (Some (pre ++ gw :: post)) nets
  = Some (Ret (Some a)).
Proof.
  intros Hpre Hgw. unfold ExternalAddr. simpl fst. cbv iota.
  by eapply ask_gateways_answer.
Qed.

(** X10. When every gateway refuses, the error returned is the one of
    the last gateway asked. *)
Theorem ExternalAddr_last_error (ip : IP) (pre : list IP) (gw : IP)
    (nets : IP -> option string * list natpmp.attempt)
    (e : natpmp.error) (tr : list natpmp.action) :
  Forall (refuses nets) pre ->
  natpmp.GetExternalAddr (fst (nets gw)) (snd (nets gw)) gw
    = Some (Fail e, tr) ->
  ExternalAddr (false, ip) (Some (pre ++ [gw])) nets
  = Some (Fail (ErrNatpmp e)).
Proof.
  intros Hpre Hgw. unfold ExternalAddr. simpl fst. cbv iota.
  by eapply ask_gateways_refused.
Qed.

End extaddr_facts.

Lemma ExternalAddr_first_answer_witness :
  extaddr.ExternalAddr (false, [10; 0; 0; 2])
    (Some ([[10; 0; 0; 1]] ++ samples.gw1 :: [[10; 0; 0; 3]])) samples_more.two_gateways
  = Some (Go.Ret (Some [192; 0; 2; 7])).
Proof.
  assert (Hpre : Forall (extaddr.refuses samples_more.two_gateways) [[10; 0; 0; 1]]).
  { constructor; [|constructor]. eexists _, _. vm_compute. reflexivity. }
  assert (Hgw : natpmp.GetExternalAddr (fst (samples_more.two_gateways samples.gw1))
                  (snd (samples_more.two_gateways samples.gw1)) samples.gw1
                = Some (Go.Ret [192; 0; 2; 7],
                        natpmp.turn [0; 0] (250 * GoTime.Millisecond)))
    by (vm_compute; reflexivity).
  exact (ExternalAddr_first_answer [10; 0; 0; 2] [[10; 0; 0; 1]] samples.gw1
           [[10; 0; 0; 3]] samples_more.two_gateways _ _ Hpre Hgw).
Defined.

Lemma ExternalAddr_last_error_witness :
  extaddr.ExternalAddr (false, [10; 0; 0; 2])
    (Some ([[10; 0; 0; 1]] ++ [[10; 0; 0; 3]])) samples_more.two_gateways
  = Some (Go.Fail (extaddr.ErrNatpmp
                     (natpmp.ErrIO "network is unreachable"))).
Proof.
  assert (Hpre : Forall (extaddr.refuses samples_more.two_gateways) [[10; 0; 0; 1]]).
  { constructor; [|constructor]. eexists _, _. vm_compute. reflexivity. }
  assert (Hgw : natpmp.GetExternalAddr (fst (samples_more.two_gateways [10; 0; 0; 3]))
                  (snd (samples_more.two_gateways [10; 0; 0; 3])) [10; 0; 0; 3]
                = Some (Go.Fail (natpmp.ErrIO "network is unreachable"), []))
    by (vm_compute; reflexivity).
  exact (ExternalAddr_last_error [10; 0; 0; 2] [[10; 0; 0; 1]] [10; 0; 0; 3]
           samples_more.two_gateways _ _ Hpre Hgw).
Defined.

(** ** Gateway discovery *)
Section gateway_facts.
Import Go gateway.






Lemma rib_gateways_DONE pre attrs post acc :
  rib_gateways (pre ++ mkMessage NLMSG_DONE attrs :: post) acc
  = rib_gateways pre acc.
Proof.
  revert acc. induction pre as [|m pre IH]; intros acc; simpl; [done|].
  destruct (m_Type m =? RTM_NEWROUTE).
  - destruct (m_attrs m) as [ra|]; [|done].
    by destruct (route_gateways ra acc).
  - by destruct (m_Type m =? NLMSG_DONE).
Qed.

(** X12. The messages that follow an NLMSG_DONE message play no part:
    the result is that of the messages before it. *)
Theorem getGatewayAddrs_stops_at_DONE (pre : list message)
    (attrs : option (list attr)) (post : list message) :
  getGatewayAddrs (Some (pre ++ mkMessage NLMSG_DONE attrs :: post))
  = getGatewayAddrs (Some pre).
Proof. unfold getGatewayAddrs. by rewrite rib_gateways_DONE. Qed.

Lemma route_gateways_roomy ra acc :
  Forall (fun a => a_Type a = RTA_GATEWAY -> (4 <= cap (a_Value a))%nat) ra ->
  is_Some (route_gateways ra acc).
Proof.
  intros H. revert acc. induction H as [|a ra Ha H IH]; intros acc; simpl.
  - done.
  - destruct (Z.eqb_spec (a_Type a) RTA_GATEWAY) as [Hg|]; [|done].
    unfold slice_range. change (0 <=? 4)%nat with true. cbn [andb].
    apply Ha, Nat.leb_le in Hg. rewrite Hg. apply IH.
Qed.

Lemma rib_gateways_roomy ribm acc :
  Forall roomy ribm -> is_Some (rib_gateways ribm acc).
Proof.
  intros H. revert acc. induction H as [|m ribm Hm H IH]; intros acc; simpl.
  - done.
  - destruct (m_Type m =? RTM_NEWROUTE).
    + destruct (m_attrs m) as [ra|] eqn:Hra; [|done].
      destruct (route_gateways_roomy ra acc (Hm ra Hra)) as [r ->]. apply IH.
    + by destruct (m_Type m =? NLMSG_DONE).
Qed.

(** X13. [getGatewayAddrs] returns a list, without an error and without
    a panic, when the routing table could be read and every gateway
    attribute holds at least 4 bytes. *)
Theorem getGatewayAddrs_returns (ribm : list message) :
  Forall (fun m => forall ra, m_attrs m = Some ra ->
            Forall (fun a => a_Type a = RTA_GATEWAY ->
                             (4 <= cap (a_Value a))%nat) ra) ribm ->
  exists gws, getGatewayAddrs (Some ribm) = Ret gws.
Proof.
  intros H. unfold getGatewayAddrs.
  destruct (rib_gateways_roomy ribm [] H) as [r ->]. by exists r.
Qed.

End gateway_facts.


Lemma getGatewayAddrs_returns_witness :
  exists gws, gateway.getGatewayAddrs (Some samples_more.rib1) = Go.Ret gws.
Proof.
  apply getGatewayAddrs_returns.
  repeat constructor; intros ra [= <-]; repeat constructor;
    simpl; intros; try discriminate; vm_compute; lia.
Defined.

(** ** The SSDP receiver and the registry it feeds *)
Section ssdp_more.
Import GoTime ssdpbase ssdp ssdpclient.

Lemma loop_snoc evs te reg :
  loop (evs ++ [te]) reg = register (fst te) (snd te) (loop evs reg).
Proof. unfold loop. by rewrite foldl_app. Qed.

Lemma loop_keyed evs reg : keyed reg -> keyed (loop evs reg).
Proof.
  intros Hreg. induction evs as [|te evs IH] using rev_ind; [done|].
  rewrite loop_snoc. intros k v. unfold register.
  destruct (decide (ev_USN (snd te) = k)) as [<-|Hne].
  - rewrite lookup_insert_eq. by intros [= <-].
  - rewrite lookup_insert_ne by done. apply IH.
Qed.

(** X14. After [loop] has taken a sequence of events, starting from the
    empty registry, the entry under a USN is the service of the last event
    with that USN, stamped with the instant at which it was taken; a USN
    that no event carried has no entry. *)
Theorem loop_last_event_wins (evs : list (Time * Event)) (usn : string) :
  loop evs ∅ !! usn
  = (fun te => mkService (ev_Location (snd te)) (ev_ST (snd te))
                 (ev_USN (snd te)) (fst te))
    <$> last (filter (fun te => ev_USN (snd te) = usn) evs).
Proof.
  induction evs as [|te evs IH] using rev_ind; [done|].
  rewrite loop_snoc, filter_app. unfold register.
  destruct (decide (ev_USN (snd te) = usn)) as [Heq|Hne].
  - rewrite filter_cons_True by done. rewrite filter_nil, last_snoc.
    rewrite <- Heq. by rewrite lookup_insert_eq.
  - rewrite filter_cons_False by done. rewrite filter_nil, app_nil_r.
    by rewrite lookup_insert_ne.
Qed.

(** X15. The services [GetServicesByType] returns from a registry that
    [loop] has built have pairwise different USNs. *)
Theorem GetServicesByType_distinct_USN (evs : list (Time * Event))
    (now : Time) (st : string) :
  NoDup (USN <$> GetServicesByType (loop evs ∅) now st).
Proof.
  unfold GetServicesByType.
  eapply sublist_NoDup; [|apply fmap_sublist, sublist_filter].
  assert (Hk : keyed (loop evs ∅)) by (by apply loop_keyed).
  assert (Heq : USN <$> (snd <$> map_to_list (loop evs ∅))
                = fst <$> map_to_list (loop evs ∅)).
  { rewrite <- list_fmap_compose. apply list_fmap_ext.
    intros i [k v] Hi. simpl. apply Hk.
    apply elem_of_map_to_list. by eapply list_elem_of_lookup_2. }
  rewrite Heq. apply NoDup_fst_map_to_list.
Qed.

Lemma handleResponse_take res l :
  handleResponse res (take eventChan_capacity l)
  = take eventChan_capacity (l ++ from_option (fun ev => [ev]) [] (event_of res)).
Proof.
  unfold handleResponse. destruct (event_of res) as [ev|]; simpl.
  - rewrite length_take.
    destruct (Nat.ltb_spec (eventChan_capacity `min` length l)
                           eventChan_capacity) as [Hlt|Hge].
    + assert (length l < eventChan_capacity)%nat by lia.
      rewrite !take_ge; [done|rewrite length_app; simpl; lia|lia].
    + rewrite take_app_le by lia. done.
  - by rewrite app_nil_r.
Qed.

(** X16. When responses arrive in a burst and the channel is not read in
    between, the channel holds the events of the first ten responses that
    pass the checks of [handleResponse] (status 200, an ST header, a
    location), in the order of arrival; the events of later responses are
    dropped. *)
Theorem handleResponse_burst (rs : list response) :
  foldl (fun ch res => handleResponse res ch) [] rs
  = take 10 (omap event_of rs).
Proof.
  induction rs as [|res rs IH] using rev_ind; [done|].
  rewrite foldl_app. simpl. rewrite IH.
  change 10%nat with eventChan_capacity.
  rewrite handleResponse_take, omap_app. simpl.
  by destruct (event_of res).
Qed.

End ssdp_more.

(** ** The UPnP client *)
Section upnp_more.
Import GoTime Go upnp upnp_words.
Variable w : world.

Lemma randInRange_range low high :
  Int31n_in_range w -> 0 <= low < high -> high < 65536 ->
  low <= randInRange w low high < high.
Proof.
  intros Hr Hl Hh. unfold randInRange.
  rewrite (Z.mod_small (high - low)) by lia.
  specialize (Hr (high - low) ltac:(lia)).
  rewrite Z.mod_small by lia. lia.
Qed.

(** X17. The port a successful [Map] reports is the external port asked
    for; when that is 0, it is a port from 1025 to 64999, chosen by
    [randInRange] (the random number generator doing what package rand
    documents). *)
Theorem Map_external_port (upnpURL : string)
    (protocol internalPort externalPort : Z) (name : string)
    (duration : Duration) (p : Z) :
  Int31n_in_range w ->
  Map w upnpURL protocol internalPort externalPort name duration = Ret p ->
  (externalPort <> 0 -> p = externalPort)
  /\ (externalPort = 0 -> p = randInRange w 1025 65000 /\ 1025 <= p < 65000).
Proof.
  intros Hr. unfold Map.
  destruct (getWANIPControlURL w upnpURL) as [wurl err].
  destruct (determineSelfIP w wurl) as [selfIP| |]; [|done..].
  destruct (Protocol_String protocol) as [proto|]; [|done].
  destruct (wurl_String w wurl) as [u|]; [|done].
  destruct (soapRequest w u _ _) as [e|body]; [done|].
  intros [= <-]. split.
  - intros Hne. apply Z.eqb_neq in Hne. by rewrite Hne.
  - intros ->. simpl. split; [done|]. by apply randInRange_range.
Qed.

(** X18. When each of the three calls panics: [GetExternalAddr] exactly
    when the description gives no control URL; [Unmap] also when the
    protocol is neither TCP nor UDP; [Map], given a control URL, when the
    local address can be determined and the protocol is neither TCP nor
    UDP. *)
Theorem upnp_panics_iff (upnpURL : string)
    (protocol internalPort externalPort : Z) (name : string)
    (duration : Duration) :
  (GetExternalAddr w upnpURL = Panic
   <-> fst (getWANIPControlURL w upnpURL) = None)
  /\ (Unmap w upnpURL protocol externalPort = Panic
      <-> fst (getWANIPControlURL w upnpURL) = None
          \/ (protocol <> TCP /\ protocol <> UDP))
  /\ (Map w upnpURL protocol internalPort externalPort name duration = Panic
      <-> match fst (getWANIPControlURL w upnpURL) with
          | None => True
          | Some u => dial_local w (Host u) <> None
                      /\ protocol <> TCP /\ protocol <> UDP
          end).
Proof.
  assert (Hp : Protocol_String protocol = None
               <-> protocol <> TCP /\ protocol <> UDP).
  { unfold Protocol_String.
    destruct (Z.eqb_spec protocol TCP); [split; [done|tauto]|].
    destruct (Z.eqb_spec protocol UDP); [split; [done|tauto]|]. done. }
  unfold GetExternalAddr, Unmap, Map.
  destruct (getWANIPControlURL w upnpURL) as [[u|] err]; simpl.
  - split; [|split].
    + destruct (soapRequest w _ _ _) as [e|body]; [done|].
      destruct (decode_envelope w body) as [data|]; [|done].
      destruct (decode_extaddr w data) as [addr|]; [|done].
      by destruct (ParseIP w addr).
    + destruct (Protocol_String protocol) as [proto|].
      * destruct (soapRequest w _ _ _); split; try done;
          (intros [?|H]; [done|]); by apply Hp in H.
      * split; [|done]. intros _. right. by apply Hp.
    + destruct (dial_local w (Host u)) as [ip|]; [|split; [done|tauto]].
      destruct (Protocol_String protocol) as [proto|].
      * destruct (soapRequest w _ _ _); split; try done;
          intros (_ & H); by apply Hp in H.
      * split; [|done]. intros _. split; [done|]. by apply Hp.
  - split; [done|]. split; [|done]. split; [by left|].
    by destruct (Protocol_String protocol).
Qed.

Lemma fold_pick_head l :
  fold_left (fun a s => pick s a) l None
  = (fun s => URL (ControlURL s)) <$> head (filter eligible l).
Proof.
  induction l as [|s l IH]; [done|]. simpl. unfold pick at 2.
  destruct (decide (eligible s)) as [[Ht Hok]|Hn].
  - rewrite filter_cons_True by done. simpl.
    rewrite Ht, String.eqb_refl, Hok. simpl. apply fold_pick_Some.
  - rewrite filter_cons_False by done. rewrite <- IH. f_equal.
    destruct (String.eqb_spec (ServiceType s) WANIPConnectionURN) as [Ht|];
      [|done].
    simpl. destruct (OK (ControlURL s)) eqn:Hok; [|done].
    destruct Hn. by split.
Qed.

(** X19. When the description is fetched with status 200 and decoded,
    [getWANIPControlURL] returns no error, and as URL the control URL,
    resolved against the URL of the description, of the first service in
    visiting order (the services of a device, then those of its embedded
    devices in turn) that has type WANIPConnection:1 and a control URL
    that parses; nil if there is none. *)
Theorem getWANIPControlURL_first_match (upnpURL : string) (urlp : url_URL)
    (body : string) (device : xDevice) :
  url_Parse w upnpURL = Some urlp ->
  http_Get w upnpURL = Some (200, body) ->
  decode_root w body = Some device ->
  getWANIPControlURL w upnpURL
  = ((fun s => URL (ControlURL s))
       <$> head (filter eligible
                   (Service_InitURLFields w urlp <$> all_services device)),
     None).
Proof.
  intros Hu Hg Hd. unfold getWANIPControlURL. rewrite Hu, Hg, Hd. simpl.
  by rewrite VisitServices_fold, all_services_InitURLFields, fold_pick_head.
Qed.

End upnp_more.

(** The statement for a request that leaves the port to [Map]. *)
Lemma Map_external_port_witness :
  upnp.Map samples_more.igd_world "http://192.168.1.1:5000/rootDesc.xml"
    upnp.TCP 8080 0 "http" (3600 * GoTime.Second) = Go.Ret 64999
  /\ (1025 <= 64999 < 65000).
Proof.
  assert (Hr : upnp_words.Int31n_in_range samples_more.igd_world)
    by (intros n Hn; simpl; lia).
  assert (Hm : upnp.Map samples_more.igd_world
                 "http://192.168.1.1:5000/rootDesc.xml"
                 upnp.TCP 8080 0 "http" (3600 * GoTime.Second)
               = Go.Ret 64999) by (vm_compute; reflexivity).
  split; [exact Hm|].
  exact (proj2 (proj2 (Map_external_port samples_more.igd_world _ _ _ _ _ _ _
                         Hr Hm) eq_refl)).
Defined.

(** The statement for the sample device: the second service is chosen. *)
Lemma getWANIPControlURL_first_match_witness :
  upnp.getWANIPControlURL samples_more.igd_world
    "http://192.168.1.1:5000/rootDesc.xml"
  = (Some (upnp.mkURL "http" "192.168.1.1:5000" "/ctl/IPConn"), None).
Proof.
  exact (getWANIPControlURL_first_match samples_more.igd_world
           "http://192.168.1.1:5000/rootDesc.xml"
           (upnp.mkURL "http" "192.168.1.1:5000"
              "http://192.168.1.1:5000/rootDesc.xml")
           "<root/>" samples_more.igd eq_refl eq_refl eq_refl).
Defined.

(** ** More on the mapping object *)
Section mapping_more.
Import GoTime Go portmap.
Local Open Scope string_scope.

(** X20. [New] makes a mapping only on a host that is not globally
    routable and whose gateways could be listed; the mapping carries the
    configuration, with the default lifetime of two hours in place of a
    lifetime of 0, it is not aborted, and its [ExternalAddr] is empty at
    every instant. *)
Theorem New_mapping (globallyRoutable : bool) (gateways : option (list IP))
    (c : Config) (m : mapping) (gwa : list IP) :
  New globallyRoutable gateways c = NewMapping m gwa ->
  globallyRoutable = false /\ gateways = Some gwa
  /\ cfg m = (if Lifetime c =? 0 then set_Lifetime (2 * Hour) c else c)%Z
  /\ Lifetime (cfg m) <> 0%Z
  /\ aborted m = false
  /\ forall now, ExternalAddr m now = "".
Proof.
  unfold New. destruct globallyRoutable; [done|].
  destruct gateways as [gwa'|]; [|done]. intros [= <- <-]. simpl.
  split; [done|]. split; [done|]. split; [done|]. split; [|done].
  destruct (Z.eqb_spec (Lifetime c) 0); [|done].
  simpl. vm_compute. discriminate.
Qed.

Lemma notify_frame m now :
  cfg (fst (notify m now)) = cfg m
  /\ expireTime (fst (notify m now)) = expireTime m
  /\ aborted (fst (notify m now)) = aborted m
  /\ abortChan (fst (notify m now)) = abortChan m
  /\ externalAddr (fst (notify m now)) = externalAddr m
  /\ prevValue (fst (notify m now)) = ExternalAddr m now
  /\ forall t, ExternalAddr (fst (notify m now)) t = ExternalAddr m t.
Proof.
  unfold notify.
  by destruct (String.eqb_spec (prevValue m) (ExternalAddr m now)).
Qed.

Lemma isActive_setInactive m now t :
  isActive (fst (setInactive m now)) t = false.
Proof.
  apply isActive_false. left. by destruct (setInactive_frame m now) as (_ & ? & _).
Qed.

(** X21. After [notify] the value remembered is the current external
    address, so a second call at the same instant does nothing; the call
    goes as far as the send exactly when the address differs from the one
    remembered, and it never changes the address itself. *)
Theorem notify_settles (m : mapping) (now : Time) :
  prevValue (fst (notify m now)) = ExternalAddr m now
  /\ (forall t, ExternalAddr (fst (notify m now)) t = ExternalAddr m t)
  /\ notify (fst (notify m now)) now = (fst (notify m now), false)
  /\ (snd (notify m now) = true <-> prevValue m <> ExternalAddr m now)
  /\ (snd (notify m now) = false -> fst (notify m now) = m).
Proof.
  assert (Hfix : forall m', prevValue m' = ExternalAddr m' now ->
                           notify m' now = (m', false)).
  { intros m' H. unfold notify. by rewrite H, String.eqb_refl. }
  destruct (notify m now) as [m' b] eqn:Hn. simpl. unfold notify in Hn.
  destruct (String.eqb_spec (prevValue m) (ExternalAddr m now)) as [He|Hne];
    injection Hn as <- <-.
  - split; [done|]. split; [done|]. split; [by apply Hfix|].
    split; [|done]. split; [done|]. intros H. by destruct H.
  - simpl. split; [done|]. split; [done|]. split; [by apply Hfix|].
    split; done.
Qed.

(** X22. An external address does not outlive the expiry: once
    [ExternalAddr] is empty it is empty at every later instant, as long as
    the mapping is not written to; and while it is not empty it is the
    same text. *)
Theorem ExternalAddr_expires (m : mapping) (now later : Time) :
  (now <= later)%Z ->
  (ExternalAddr m now = "" -> ExternalAddr m later = "")
  /\ (ExternalAddr m later <> "" -> ExternalAddr m now = ExternalAddr m later).
Proof.
  intros Hle.
  assert (H : isActive m later = true -> isActive m now = true).
  { rewrite !isActive_true. intros [? ?]. split; [done|lia]. }
  unfold ExternalAddr. destruct (isActive m later).
  - rewrite H by done. simpl. split; done.
  - simpl. split; done.
Qed.

(** X23. After [setInactive] the external address is empty at every
    instant, whatever the mapping was; the configuration, the recorded
    address and the abort flag are as before. *)
Theorem setInactive_clears (m : mapping) (now : Time) :
  (forall t, ExternalAddr (fst (setInactive m now)) t = "")
  /\ prevValue (fst (setInactive m now)) = ""
  /\ cfg (fst (setInactive m now)) = cfg m
  /\ externalAddr (fst (setInactive m now)) = externalAddr m
  /\ aborted (fst (setInactive m now)) = aborted m.
Proof.
  destruct (setInactive_frame m now) as (Hc & He & Ha & _ & Hx).
  split; [|split; [|done]].
  - intros t. apply ExternalAddr_inactive, isActive_setInactive.
  - unfold setInactive.
    destruct (notify_frame (set_expireTime zero m) now)
      as (_ & _ & _ & _ & _ & -> & _).
    apply ExternalAddr_inactive, isActive_false. by left.
Qed.

End mapping_more.

(** The statement for the sample configuration, whose lifetime is 0. *)
Lemma New_mapping_witness :
  portmap.New false (Some [samples.gw1]) samples.cfg1
  = portmap.NewMapping samples.m1 [samples.gw1]
  /\ portmap.Lifetime (portmap.cfg samples.m1) <> 0.
Proof.
  split; [reflexivity|].
  exact (proj1 (proj2 (proj2 (proj2
           (New_mapping false (Some [samples.gw1]) samples.cfg1 samples.m1
              [samples.gw1] eq_refl))))).
Defined.

(** The statement for a mapping that expires at instant 4600 s. *)
Lemma ExternalAddr_expires_witness :
  (4600 * GoTime.Second <= 4800 * GoTime.Second)
  /\ (portmap.ExternalAddr samples_more.m_granted (4600 * GoTime.Second)
      = ""%string ->
      portmap.ExternalAddr samples_more.m_granted (4800 * GoTime.Second)
      = ""%string).
Proof.
  split; [vm_compute; discriminate|].
  exact (proj1 (ExternalAddr_expires samples_more.m_granted
                  (4600 * GoTime.Second) (4800 * GoTime.Second)
                  ltac:(vm_compute; discriminate))).
Defined.

(** ** More on the controller *)
Section controller_more.
Import GoTime Go portmap controller controller_words.

Lemma lIsActive_eq s : lIsActive s = isActive (st_m s) (now s).
Proof. reflexivity. Qed.

Lemma try_send_ok c : notify_ok c -> notify_ok (try_send c).
Proof.
  unfold notify_ok, try_send. intros (Hc & Hp & Hcl). rewrite Hc.
  destruct (Nat.ltb_spec (pending c) 1); simpl; [|done].
  split; [done|]. split; [lia|done].
Qed.

Lemma notify_chan_ok m t :
  notify_ok (notifyChan m) -> notify_ok (notifyChan (fst (notify m t))).
Proof.
  unfold notify. destruct (String.eqb _ _); simpl; [done|]. apply try_send_ok.
Qed.

Lemma setInactive_chan_ok m t :
  notify_ok (notifyChan m) -> notify_ok (notifyChan (fst (setInactive m t))).
Proof. intros H. unfold setInactive. by apply notify_chan_ok. Qed.

#[local] Opaque services lIsActive ExternalAddr denet.NextDelay denet.Reset
  try_send notify setInactive isActive.

(** Case analysis on a step of the controller, with the calls of [notify]
    and [setInactive] left as they are. *)
Ltac ctl_cases :=
  unfold ctl_step, emit, try_nat, try_upnp, nat_done, upnp_done,
    after_attempt in *;
  repeat (simplify_eq; cbn [fst snd st_m aborting md ok d at_pc now byUSN
                            with_m with_aborting with_md with_ok with_d with_pc
                            with_now with_byUSN
                            cfg expireTime aborted abortChan notifyChan
                            externalAddr prevValue set_cfg set_expireTime
                            set_externalAddr] in *;
          try case_match).

(** X24. On a controller started by [New], a call of [Delete] never
    panics: the abort channel is closed exactly when the mapping is marked
    as aborted, so it is closed once, by the first call. *)
Theorem Delete_never_panics (gwa : list IP) (s : state) (log : list event) :
  reachable gwa s log ->
  exists m',
    Delete (st_m s) = (Some m', if aborted (st_m s) then [] else [OpClose])
    /\ aborted m' = true
    /\ closed (abortChan m') = true.
Proof.
  intros Hr. destruct (reachable_inv _ _ _ Hr) as (Hac & _).
  unfold Delete, close. destruct (aborted (st_m s)) eqn:Ha.
  - exists (st_m s). by rewrite <- Hac.
  - rewrite <- Hac. by eexists.
Qed.

Lemma ctl_step_notify_ok gwa r s s' evs :
  notify_ok (notifyChan (st_m s)) ->
  ctl_step gwa r s = Some (s', evs) ->
  notify_ok (notifyChan (st_m s')).
Proof.
  intros Hok Hstep. ctl_cases; try done;
    try (apply notify_chan_ok; done);
    try (apply setInactive_chan_ok; done).
Qed.

Lemma step_notify_ok gwa i s s' evs :
  notify_ok (notifyChan (st_m s)) ->
  step gwa i s = Some (s', evs) ->
  notify_ok (notifyChan (st_m s')).
Proof.
  destruct i as [dt| |ev| |r]; [..|apply ctl_step_notify_ok]; simpl;
    intros Hok.
  - destruct (0 <=? dt)%Z; [|done]. by intros [= <- <-].
  - unfold Delete, close. destruct (aborted (st_m s)); simpl.
    + by intros [= <- <-].
    + destruct (closed _); [done|]. by intros [= <- <-].
  - by intros [= <- <-].
  - destruct (pending (notifyChan (st_m s))) as [|n] eqn:Hp; [done|].
    intros [= <- <-]. simpl. destruct Hok as (Hc & Hle & Hcl).
    split; [done|]. split; [simpl; lia|done].
Qed.

(** X25. On a controller started by [New], the notification channel has
    room for one value and never holds more: a change of the external
    address that finds a notification waiting adds none. *)
Theorem notifyChan_bounded (gwa : list IP) (s : state) (log : list event) :
  reachable gwa s log ->
  capacity (notifyChan (st_m s)) = 1%nat
  /\ (pending (notifyChan (st_m s)) <= 1)%nat
  /\ closed (notifyChan (st_m s)) = false.
Proof.
  induction 1 as [c t0 reg m Hnew|s log i s' evs _ IH Hstep].
  - unfold New in Hnew. injection Hnew as <-. simpl. split; [done|].
    split; [lia|done].
  - by eapply step_notify_ok.
Qed.

Lemma ctl_step_done gwa r s s' evs :
  ctl_step gwa r s = Some (s', evs) ->
  at_pc s' = PDone ->
  isActive (st_m s') (now s') = false.
Proof.
  intros Hstep Hpc. ctl_cases; try done;
    try apply isActive_setInactive.
  all: match goal with
       | H : _ && negb (lIsActive _) = true |- _ =>
           apply andb_true_iff in H as [_ H];
           apply negb_true_iff in H; by rewrite lIsActive_eq in H
       end.
Qed.

Lemma done_no_step gwa r s : at_pc s = PDone -> ctl_step gwa r s = None.
Proof. unfold ctl_step. by intros ->. Qed.

Lemma done_inactive gwa s log :
  reachable gwa s log -> at_pc s = PDone ->
  isActive (st_m s) (now s) = false.
Proof.
  induction 1 as [c t0 reg m Hnew|s log i s' evs _ IH Hstep]; [done|].
  intros Hpc.
  assert (Hi : (exists r, i = InCtl r) \/ (forall r, i <> InCtl r)).
  { destruct i; eauto. }
  destruct Hi as [[r ->]|Hne].
  - by eapply ctl_step_done.
  - destruct (env_step_md gwa i s s' evs) as (_ & Hp & _ & Hn & He & _);
      [done|done|].
    rewrite Hp in Hpc. specialize (IH Hpc).
    apply isActive_false. apply isActive_false in IH. rewrite He.
    destruct IH; [by left|right; lia].
Qed.

Lemma done_run gwa ins s log s' log' :
  at_pc s = PDone -> run gwa ins s log = Some (s', log') -> at_pc s' = PDone.
Proof.
  revert s log. induction ins as [|i ins IH]; intros s log Hpc; simpl.
  - by intros [= <- <-].
  - destruct (step gwa i s) as [[s1 evs]|] eqn:Hs; [|done].
    apply IH.
    assert (Hi : (exists r, i = InCtl r) \/ (forall r, i <> InCtl r)).
    { destruct i; eauto. }
    destruct Hi as [[r ->]|Hne].
    + simpl in Hs. by rewrite done_no_step in Hs.
    + destruct (env_step_md gwa i s s1 evs) as (_ & Hp & _); [done|done|].
      by rewrite Hp.
Qed.

(** X26. Once the controller of a mapping made by [New] has returned, it
    takes no further step, and however the run goes on (time passing,
    calls of [Delete], beacons, notifications taken) the mapping is
    inactive and its [ExternalAddr] is empty. *)
Theorem returned_stays_inactive (gwa : list IP) (s : state)
    (log : list event) :
  reachable gwa s log ->
  at_pc s = PDone ->
  (forall r, ctl_step gwa r s = None)
  /\ forall ins s' log', run gwa ins s log = Some (s', log') ->
       at_pc s' = PDone
       /\ isActive (st_m s') (now s') = false
       /\ ExternalAddr (st_m s') (now s') = ""%string.
Proof.
  intros Hr Hpc. split; [intros r; by apply done_no_step|].
  intros ins s' log' Hrun.
  assert (Hpc' : at_pc s' = PDone) by (by eapply done_run).
  assert (Hin : isActive (st_m s') (now s') = false).
  { eapply done_inactive; [|done]. by eapply run_reachable. }
  split; [done|]. split; [done|]. by apply ExternalAddr_inactive.
Qed.

(** X27. NAT-PMP, not aborting: when the gateway grants the mapping and
    then answers the request for its address, the controller records the
    port and the lifetime granted in the configuration, the expiry as the
    instant of the grant plus that lifetime, and the address if there is
    one; it resets the backoff, calls [notify] and sleeps for half the
    lifetime granted. *)
Theorem natpmp_grant (gwa : list IP) (s : state) (log : list event)
    (gw : IP) (rest : list IP) (pl : Duration) (port : Z) (life : Duration)
    (res : option string) :
  at_pc s = PNatMap gw rest pl ->
  pl <> 0 ->
  aborting s = false ->
  exists s',
    run gwa [InCtl (RNatMap (Some (port, life))); InCtl (RNatExt res)] s log
    = Some (s', (log ++ [EvNatMap gw pl (Some (port, life))])
                ++ [EvNatExt gw res; EvReset; EvNotify;
                    EvSleep (Z.quot life 2)])
    /\ cfg (st_m s')
       = set_Backoff (denet.Reset (Backoff (cfg (st_m s))))
           (set_Lifetime life (set_ExternalPort port (cfg (st_m s))))
    /\ expireTime (st_m s') = Add (now s) life
    /\ externalAddr (st_m s') = default (externalAddr (st_m s)) res
    /\ prevValue (st_m s') = ExternalAddr (st_m s') (now s)
    /\ at_pc s' = PSelect (Add (now s) (Z.quot life 2))
    /\ aborting s' = false /\ md s' = md s /\ now s' = now s.
Proof.
  intros Hpc Hpl Ha. destruct s as [m ab md0 ok0 d0 pc0 now0 reg].
  simpl in Hpc, Ha. subst pc0 ab. apply Z.eqb_neq in Hpl.
  unfold run, step, iteration_log. ctl_cases.
  all: eexists; (split; [reflexivity|]);
    cbn [st_m at_pc aborting md now with_m with_pc with_d with_ok].
  all: match goal with
       | |- context [notify ?m1 ?t] =>
           destruct (notify_frame m1 t) as (Hc & He & _ & _ & Hx & Hv & Hea)
       end.
  all: by rewrite Hc, He, Hx, Hv, Hea.
Qed.

(** X28. UPnP, not aborting: when the device accepts the mapping and then
    answers the request for its address, the controller records the port,
    the expiry as the instant of the answer plus the configured lifetime,
    and the address if there is one; it resets the backoff, calls [notify]
    and sleeps for one hour, whatever the lifetime. *)
Theorem upnp_grant (gwa : list IP) (s : state) (log : list event)
    (svc : ssdp.Service) (rest : list ssdp.Service) (port : Z)
    (res : option string) :
  at_pc s = PUpnpMap svc rest ->
  aborting s = false ->
  exists s',
    run gwa [InCtl (RUpnpMap (Some port)); InCtl (RUpnpExt res)] s log
    = Some (s', (log ++ [EvUpnpMap svc (Some port)])
                ++ [EvUpnpExt svc res; EvReset; EvNotify;
                    EvSleep (1 * Hour)])
    /\ cfg (st_m s')
       = set_Backoff (denet.Reset (Backoff (cfg (st_m s))))
           (set_ExternalPort port (cfg (st_m s)))
    /\ expireTime (st_m s') = Add (now s) (Lifetime (cfg (st_m s)))
    /\ externalAddr (st_m s') = default (externalAddr (st_m s)) res
    /\ prevValue (st_m s') = ExternalAddr (st_m s') (now s)
    /\ at_pc s' = PSelect (Add (now s) (1 * Hour))
    /\ aborting s' = false /\ md s' = md s /\ now s' = now s.
Proof.
  intros Hpc Ha. destruct s as [m ab md0 ok0 d0 pc0 now0 reg].
  simpl in Hpc, Ha. subst pc0 ab.
  unfold run, step, iteration_log. ctl_cases.
  all: eexists; (split; [reflexivity|]);
    cbn [st_m at_pc aborting md now with_m with_pc with_d with_ok].
  all: match goal with
       | |- context [notify ?m1 ?t] =>
           destruct (notify_frame m1 t) as (Hc & He & _ & _ & Hx & Hv & Hea)
       end.
  all: by rewrite Hc, He, Hx, Hv, Hea.
Qed.

End controller_more.

(** The statement at the start of the sample controller. *)
Lemma Delete_never_panics_witness :
  exists m',
    portmap.Delete (controller.st_m samples.s0)
    = (Some m', if portmap.aborted (controller.st_m samples.s0)
                then [] else [portmap.OpClose])
    /\ portmap.aborted m' = true
    /\ portmap.closed (portmap.abortChan m') = true.
Proof.
  exact (Delete_never_panics [samples.gw1] samples.s0 []
           (samples_start_reachable _ _)).
Defined.

(** The statement after the sample run in which the mapping becomes
    active and is then torn down. *)
Lemma notifyChan_bounded_witness :
  exists s log,
    controller.run [samples.gw1] samples.teardown_inputs samples.s0 []
      = Some (s, log)
    /\ (portmap.pending (portmap.notifyChan (controller.st_m s)) <= 1)%nat.
Proof.
  eexists _, _.
  match goal with
  | |- ?A /\ _ => assert (Hrun : A) by (vm_compute; reflexivity)
  end.
  split; [exact Hrun|].
  exact (proj1 (proj2
           (notifyChan_bounded [samples.gw1] _ _
              (run_reachable [samples.gw1] samples.teardown_inputs
                 samples.s0 [] _ _ (samples_start_reachable _ _) Hrun)))).
Defined.

(** The statement after the sample run in which the controller returns
    because the mapping had expired. *)
Lemma returned_stays_inactive_witness :
  exists s log s' log',
    controller.run [samples.gw1] samples.expired_then_deleted samples.s0 []
      = Some (s, log)
    /\ controller.at_pc s = controller.PDone
    /\ controller.run [samples.gw1] samples_more.afterwards s log
       = Some (s', log')
    /\ portmap.ExternalAddr (controller.st_m s') (controller.now s')
       = ""%string.
Proof.
  eexists _, _, _, _.
  match goal with
  | |- ?A /\ ?B /\ ?C /\ _ =>
      assert (Hrun : A) by (vm_compute; reflexivity);
      assert (Hpc : B) by (vm_compute; reflexivity);
      assert (Hrun' : C) by (vm_compute; reflexivity)
  end.
  split; [exact Hrun|]. split; [exact Hpc|]. split; [exact Hrun'|].
  exact (proj2 (proj2
           (proj2 (returned_stays_inactive [samples.gw1] _ _
                     (run_reachable [samples.gw1]
                        samples.expired_then_deleted samples.s0 [] _ _
                        (samples_start_reachable _ _) Hrun) Hpc)
              _ _ _ Hrun'))).
Defined.

(** The statement for a grant of port 8080 for 3600 s. *)
Lemma natpmp_grant_witness :
  exists s',
    controller.run [samples.gw1] samples.granted samples.s_nat_wait []
    = Some (s', ([] ++ [controller.EvNatMap samples.gw1 (2 * GoTime.Hour)
                          (Some (8080, 3600 * GoTime.Second))])
                ++ [controller.EvNatExt samples.gw1 (Some "192.0.2.7"%string);
                    controller.EvReset; controller.EvNotify;
                    controller.EvSleep (Z.quot (3600 * GoTime.Second) 2)])
    /\ controller.at_pc s'
       = controller.PSelect
           (GoTime.Add (controller.now samples.s_nat_wait)
                       (Z.quot (3600 * GoTime.Second) 2)).
Proof.
  destruct (natpmp_grant [samples.gw1] samples.s_nat_wait [] samples.gw1 []
              (2 * GoTime.Hour) 8080 (3600 * GoTime.Second)
              (Some "192.0.2.7"%string) eq_refl
              ltac:(vm_compute; discriminate) eq_refl)
    as (s' & Hrun & _ & _ & _ & _ & Hpc & _).
  exists s'. split; [exact Hrun|exact Hpc].
Defined.

(** The statement for a device that accepts port 8080. *)
Lemma upnp_grant_witness :
  exists s',
    controller.run [samples.gw1]
      [controller.InCtl (controller.RUpnpMap (Some 8080));
       controller.InCtl (controller.RUpnpExt None)]
      samples_more.s_upnp_wait []
    = Some (s', ([] ++ [controller.EvUpnpMap samples.svc1 (Some 8080)])
                ++ [controller.EvUpnpExt samples.svc1 None;
                    controller.EvReset; controller.EvNotify;
                    controller.EvSleep (1 * GoTime.Hour)])
    /\ controller.at_pc s'
       = controller.PSelect
           (GoTime.Add (controller.now samples_more.s_upnp_wait)
                       (1 * GoTime.Hour)).
Proof.
  destruct (upnp_grant [samples.gw1] samples_more.s_upnp_wait []
              samples.svc1 [] 8080 None eq_refl eq_refl)
    as (s' & Hrun & _ & _ & _ & _ & Hpc & _).
  exists s'. split; [exact Hrun|exact Hpc].
Defined.
